(** * Stock analysis: fetching, metric derivation, scoring and ranking

    A shallow embedding of [data_fetch.py] (class [FinancialDataFetcher]) and
    [analysis.py] (class [StockAnalyzer]).

    Modelling conventions.
    - A Python number ([int] or [float]) is the rational it denotes ([Qc]).
      Arithmetic on floats is IEEE 754 binary64 arithmetic: the exact result
      rounded to the nearest binary64 number ([round64]). An integer that
      enters such an operation is taken for the float of its value, which
      is exact below 2^53. Infinities and NaN are not modelled.
    - A JSON field value is [None], a number or a string ([value]); a
      sub-record is a dictionary from field names to such values; a provider
      response is [None], a string, a dictionary or a list of dictionaries
      ([pyval]).
    - A Python [dict] whose iteration order matters ([stocks_data],
      [self.results]) is an association list updated with [dict_set]; the
      other dictionaries are [gmap]s.
    - Exceptions are values of [exn]; code that may raise lives in [res]
      (pure code) or in [M] (code that talks to the network and sleeps). *)

From Stdlib Require Import QArith Qcanon.
From Stdlib Require PrimFloat FloatOps SpecFloat.
From stdpp Require Import gmap strings list fin_maps sorting.

Local Open Scope Z_scope.

(** ** Python values and exceptions *)

Module Py.

Inductive value :=
  | VNone
  | VNum (q : Qc)
  | VStr (s : string).

#[global] Instance value_eq_dec : EqDecision value.
Proof. solve_decision. Defined.

Inductive pyval :=
  | PNone
  | PStr (s : string)
  | PObj (o : gmap string value)
  | PList (l : list (gmap string value)).

Inductive exn_class :=
  | TypeError
  | KeyError
  | IndexError
  | AttributeError
  | ValueError
  | OverflowError
  | Exception.

(** An exception object: its class and [str(e)]. *)
Record exn := PyExc { exc_class : exn_class; str : string }.

Inductive res (A : Type) :=
  | Ok (a : A)
  | Raise (e : exn).
Arguments Ok {A} a.
Arguments Raise {A} e.

#[global] Instance res_ret : MRet res := λ A a, Ok a.
#[global] Instance res_bind : MBind res := λ A B f m,
  match m with
  | Ok a => f a
  | Raise e => Raise e
  end.

(** No exception was raised. *)
Definition is_ok {A : Type} (r : res A) : bool :=
  match r with
  | Ok _ => true
  | Raise _ => false
  end.

(** [num n] is the Python integer literal [n]. *)
Definition num (n : Z) : value := VNum (Qc_of_Z n).

(** *** Binary64 arithmetic *)

(** The integer nearest to [n / d], for [d > 0]; of two nearest ones, the
    even one. *)
Definition round_half_even (n d : Z) : Z :=
  let q := n / d in
  match 2 * (n mod d) ?= d with
  | Lt => q
  | Gt => q + 1
  | Eq => if Z.even q then q else q + 1
  end.

(** [n / d] divided by [2 ^ e], as a fraction. *)
Definition scaled (n d e : Z) : Z * Z :=
  if bool_decide (0 ≤ e) then (n, d * 2 ^ e) else (n * 2 ^ (- e), d).

(** The binary64 number nearest to [q], ties to the even significand: [q]
    is written [m * 2 ^ e] with a significand [m] of 53 bits, or of fewer
    bits at the least exponent [-1074] (a subnormal number), and [m] is
    rounded to an integer. The exponent has no upper bound here: where a
    float overflows to infinity (beyond 1.8e308), the model rounds on. *)
Definition round64 (q : Qc) : Qc :=
  let n := Z.abs (Qnum q) in
  let d := Z.pos (Qden q) in
  if bool_decide (n = 0) then q else
  let e0 := Z.log2 n - Z.log2 d - 53 in
  let e1 := if bool_decide (2 ^ 53 * (scaled n d e0).2 ≤ (scaled n d e0).1)
            then e0 + 1 else e0 in
  let e := Z.max e1 (-1074) in
  let m := round_half_even (scaled n d e).1 (scaled n d e).2 in
  Q2Qc (inject_Z (Z.sgn (Qnum q) * m) * 2 ^ e).
Arguments round64 : simpl never.

(** [a + b], [a * b] and [a / b] on floats. *)
Definition fadd (a b : Qc) : Qc := round64 (a + b).
Definition fmul (a b : Qc) : Qc := round64 (a * b).
Definition fdiv (a b : Qc) : Qc := round64 (a / b).

(** The float a decimal literal denotes, in JSON as in Python. *)
Definition float (q : Q) : value := VNum (round64 (Q2Qc q)).

(** The rational a binary64 number of the kernel denotes, when it is
    finite. *)
Definition of_binary64 (f : PrimFloat.float) : option Qc :=
  match FloatOps.Prim2SF f with
  | SpecFloat.S754_zero _ => Some (Qc_of_Z 0)
  | SpecFloat.S754_finite s m e =>
      Some (Q2Qc (inject_Z (if s then Z.neg m else Z.pos m) * 2 ^ e))
  | _ => None
  end.

(** [op] on rationals computes what [prim] computes on the finite binary64
    numbers [f] and [g], unless that is an infinity. *)
Definition agrees (op : Qc → Qc → Qc)
    (prim : PrimFloat.float → PrimFloat.float → PrimFloat.float)
    (f g : PrimFloat.float) : bool :=
  match of_binary64 f, of_binary64 g with
  | Some a, Some b =>
      match of_binary64 (prim f g) with
      | Some c => bool_decide (op a b = c)
      | None => true
      end
  | _, _ => false
  end.

(** Binary64 numbers to compare the two arithmetics on: fractions that
    are not binary, integers, large and tiny numbers, subnormal ones. *)
Definition binary64_samples : list PrimFloat.float :=
  let f := λ (m e : Z),
    FloatOps.SF2Prim (SpecFloat.S754_finite false (Z.to_pos m) e) in
  let div := PrimFloat.div in
  [ div (f 1 0) (f 10 0); div (f 2 0) (f 10 0); div (f 5 0) (f 100 0);
    div (f 7 0) (f 100 0); div (f 3 0) (f 10 0); f 3 0; f 100 0;
    PrimFloat.opp (div (f 7 0) (f 10 0)); f 9007199254740993 0; f 1 200;
    f 3 (-700); f 2024 (-1074) ].

(** [bool(x)] for the values a response can be. *)
Definition truthy (x : pyval) : bool :=
  match x with
  | PNone => false
  | PStr s => negb (String.eqb s "")
  | PObj o => negb (Nat.eqb (size o) 0)
  | PList l => negb (Nat.eqb (length l) 0)
  end.

(** [x[0]]. A dictionary with string keys has no key [0]. *)
Definition index0 (x : pyval) : res pyval :=
  match x with
  | PList (o :: _) => Ok (PObj o)
  | PList [] => Raise (PyExc IndexError "list index out of range")
  | PObj _ => Raise (PyExc KeyError "0")
  | PStr (String c _) => Ok (PStr (String c ""))
  | PStr "" => Raise (PyExc IndexError "string index out of range")
  | PNone => Raise (PyExc TypeError "'NoneType' object is not subscriptable")
  end.

(** [x.get(key, default)]: only dictionaries have [get]. *)
Definition py_get (x : pyval) (key : string) (default_ : value) : res value :=
  match x with
  | PObj o => Ok (default default_ (o !! key))
  | PNone => Raise (PyExc AttributeError "'NoneType' object has no attribute 'get'")
  | PStr _ => Raise (PyExc AttributeError "'str' object has no attribute 'get'")
  | PList _ => Raise (PyExc AttributeError "'list' object has no attribute 'get'")
  end.

(** [len(x)]. *)
Definition py_len (x : pyval) : res nat :=
  match x with
  | PList l => Ok (length l)
  | PStr s => Ok (String.length s)
  | PObj o => Ok (size o)
  | PNone => Raise (PyExc TypeError "object of type 'NoneType' has no len()")
  end.

Fixpoint chars (s : string) : list pyval :=
  match s with
  | EmptyString => []
  | String c s' => PStr (String c "") :: chars s'
  end.

(** The elements of [x[:n]], as the comprehension iterates over them. A
    dictionary cannot be sliced. *)
Definition slice_to (n : nat) (x : pyval) : res (list pyval) :=
  match x with
  | PList l => Ok (PObj <$> take n l)
  | PStr s => Ok (take n (chars s))
  | PObj _ => Raise (PyExc TypeError "unhashable type: 'slice'")
  | PNone => Raise (PyExc TypeError "'NoneType' object is not subscriptable")
  end.

Fixpoint str_repeat (s : string) (n : nat) : string :=
  match n with
  | O => ""
  | S n' => s +:+ str_repeat s n'
  end.

(** The exception of [None * 100]. *)
Definition mul_none_error : exn :=
  PyExc TypeError "unsupported operand type(s) for *: 'NoneType' and 'int'".

(** [v * 100] *)
Definition mul100 (v : value) : res value :=
  match v with
  | VNum q => Ok (VNum (fmul q (Qc_of_Z 100)))
  | VStr s => Ok (VStr (str_repeat s 100))
  | VNone => Raise mul_none_error
  end.

(** [v > c] and [v < c] against an integer literal [c]. *)
Definition py_gt (v : value) (c : Z) : res bool :=
  match v with
  | VNum q => Ok (bool_decide (Qc_of_Z c < q)%Qc)
  | VStr _ => Raise (PyExc TypeError "'>' not supported between instances of 'str' and 'int'")
  | VNone => Raise (PyExc TypeError "'>' not supported between instances of 'NoneType' and 'int'")
  end.

Definition py_lt (v : value) (c : Z) : res bool :=
  match v with
  | VNum q => Ok (bool_decide (q < Qc_of_Z c)%Qc)
  | VStr _ => Raise (PyExc TypeError "'<' not supported between instances of 'str' and 'int'")
  | VNone => Raise (PyExc TypeError "'<' not supported between instances of 'NoneType' and 'int'")
  end.

Definition as_num (v : value) : res Qc :=
  match v with
  | VNum q => Ok q
  | _ => Raise (PyExc TypeError "cannot perform reduce with flexible type")
  end.

(** What [np.mean] computes on an array of numbers: the elements become
    [float64], they are added up from the first to the last (numpy adds
    fewer than 8 elements in one plain loop; the arrays here have at most
    5), and the sum is divided by their number. *)
Definition mean (qs : list Qc) : Qc :=
  fdiv (foldl fadd (Qc_of_Z 0) (round64 <$> qs))
       (Qc_of_Z (Z.of_nat (length qs))).

(** [np.mean(l)] on a list without [None]: numbers are averaged, a list
    holding a string has no numeric mean. *)
Definition np_mean (l : list value) : res Qc :=
  qs ← mapM as_num l; Ok (mean qs).

(** [d[k] = v] on an insertion-ordered dictionary: an existing key keeps
    its position, a new key goes last. *)
Fixpoint dict_set {V : Type} (k : string) (v : V) (d : list (string * V))
    : list (string * V) :=
  match d with
  | [] => [(k, v)]
  | (k', v') :: d' =>
      if decide (k = k') then (k, v) :: d' else (k', v') :: dict_set k v d'
  end.

(** [d[k][field] = v], for [k] a key of [d]: the entry of [k] is updated in
    place. *)
Fixpoint dict_alter {V : Type} (f : V → V) (k : string) (d : list (string * V))
    : list (string * V) :=
  match d with
  | [] => []
  | (k', v') :: d' =>
      if decide (k = k') then (k', f v') :: d' else (k', v') :: dict_alter f k d'
  end.

(** [range(n)] *)
Definition range (n : Z) : list Z := Z.of_nat <$> seq 0 (Z.to_nat n).

End Py.
Import Py.

(** ** data_fetch.py *)

Module Fetch.

(** What one [requests.get(url, params)] followed by [raise_for_status()]
    and [json()] does: it yields the decoded body, or one of them raises a
    [requests.exceptions.RequestException] with the given message. *)
Inductive outcome :=
  | Response (body : pyval)
  | RequestException (msg : string).

Inductive event :=
  | EvGet (url : string) (params : gmap string value)
  | EvSleep (seconds : Qc).

(** The observable state: how many requests were sent, and the requests
    and sleeps so far, oldest first. *)
Record world := World { sent : nat; trace : list event }.

(** Code that sends requests and sleeps, and may raise. *)
Definition M (A : Type) : Type := world → res A * world.

#[global] Instance M_ret : MRet M := λ A a w, (Ok a, w).
#[global] Instance M_bind : MBind M := λ A B f m w,
  match m w with
  | (Ok a, w') => f a w'
  | (Raise e, w') => (Raise e, w')
  end.

Definition throw {A : Type} (e : exn) : M A := λ w, (Raise e, w).

Definition lift {A : Type} (r : res A) : M A := λ w, (r, w).

(** [try: body / except Exception as e: handler e] *)
Definition try_except {A : Type} (body : M A) (handler : exn → M A) : M A := λ w,
  match body w with
  | (Ok a, w') => (Ok a, w')
  | (Raise e, w') => handler e w'
  end.

(** The longest sleep, in seconds: [time.sleep] counts nanoseconds in a
    signed 64-bit integer. *)
Definition sleep_max : Z := 9223372036.

(** The exception [time.sleep(seconds)] raises, if any: [OverflowError]
    for a length that does not fit the counter, else [ValueError] for a
    negative one. *)
Definition sleep_error (seconds : Qc) : option exn :=
  if decide (seconds < Qc_of_Z (- sleep_max) ∨ Qc_of_Z sleep_max < seconds)%Qc
  then Some (PyExc OverflowError "timestamp too large to convert to C _PyTime_t")
  else if decide (seconds < Qc_of_Z 0)%Qc
  then Some (PyExc ValueError "sleep length must be non-negative")
  else None.

(** [time.sleep(seconds)]: a length it refuses raises before any time
    passes. *)
Definition sleep (seconds : Qc) : M unit := λ w,
  match sleep_error seconds with
  | Some e => (Raise e, w)
  | None => (Ok (), World (sent w) (trace w ++ [EvSleep seconds]))
  end.

Record FinancialDataFetcher := {
  api_key : string;
  base_url : string;
  max_retries : Z;
  retry_delay : Z
}.

(** [FinancialDataFetcher(api_key, max_retries=3, retry_delay=2)] *)
Definition __init__ (api_key : string) (max_retries retry_delay : Z)
    : FinancialDataFetcher :=
  {| api_key := api_key;
     base_url := "https://financialmodelingprep.com/api/v3";
     max_retries := max_retries;
     retry_delay := retry_delay |}.

Definition default_fetcher (api_key : string) : FinancialDataFetcher :=
  __init__ api_key 3 2.

(** The exception raised once the last attempt has failed with [msg]. *)
Definition terminal_error (msg : string) : exn :=
  PyExc Exception ("API-Anfrage fehlgeschlagen: " +:+ msg).

Section fetcher.

(** The provider: the answer to the [n]-th request sent. *)
Variable net : nat → string → gmap string value → outcome.
Variable self : FinancialDataFetcher.

Definition http_get (url : string) (params : gmap string value) : M outcome := λ w,
  (Ok (net (sent w) url params),
   World (S (sent w)) (trace w ++ [EvGet url params])).

(** The body of [for attempt in range(self.max_retries)], over the
    attempts still to make. Leaving the loop without a [return] returns
    [None]. *)
Fixpoint request_loop (url : string) (params : gmap string value)
    (attempts : list Z) : M pyval :=
  match attempts with
  | [] => mret PNone
  | attempt :: rest =>
      r ← http_get url params;
      match r with
      | Response body => mret body
      | RequestException e =>
          if bool_decide (attempt < max_retries self - 1)
          then _ ← sleep (Qc_of_Z (retry_delay self)); request_loop url params rest
          else throw (terminal_error e)
      end
  end.

Definition _make_api_request (endpoint : string) (params : gmap string value)
    : M pyval :=
  let params := <["apikey" := VStr (api_key self)]> params in
  let url := base_url self +:+ "/" +:+ endpoint in
  request_loop url params (range (max_retries self)).

(** [{'period': 'annual', 'limit': 5}], the getters' default arguments. *)
Definition period_limit : gmap string value :=
  {[ "period" := VStr "annual"; "limit" := num 5 ]}.

(** [data[0] if data else {}] *)
Definition unwrap (data : pyval) : M pyval :=
  if truthy data then lift (index0 data) else mret (PObj ∅).

Definition get_company_profile (symbol : string) : M pyval :=
  data ← _make_api_request ("profile/" +:+ symbol) ∅; unwrap data.

Definition get_income_statement (symbol : string) : M pyval :=
  _make_api_request ("income-statement/" +:+ symbol) period_limit.

Definition get_balance_sheet (symbol : string) : M pyval :=
  _make_api_request ("balance-sheet-statement/" +:+ symbol) period_limit.

Definition get_cash_flow (symbol : string) : M pyval :=
  _make_api_request ("cash-flow-statement/" +:+ symbol) period_limit.

Definition get_key_metrics (symbol : string) : M pyval :=
  _make_api_request ("key-metrics/" +:+ symbol) period_limit.

Definition get_ratios (symbol : string) : M pyval :=
  _make_api_request ("ratios/" +:+ symbol) period_limit.

Definition get_growth (symbol : string) : M pyval :=
  _make_api_request ("financial-growth/" +:+ symbol) period_limit.

Definition get_stock_quote (symbol : string) : M pyval :=
  data ← _make_api_request ("quote/" +:+ symbol) ∅; unwrap data.

(** The record returned when a sub-request raised. *)
Definition error_record (symbol : string) (e : exn) : gmap string pyval :=
  {[ "symbol" := PStr symbol; "error" := PStr (str e) ]}.

Definition get_stock_data (symbol : string) : M (gmap string pyval) :=
  try_except
    (company_profile ← get_company_profile symbol;
     income_statements ← get_income_statement symbol;
     balance_sheets ← get_balance_sheet symbol;
     key_metrics ← get_key_metrics symbol;
     ratios ← get_ratios symbol;
     growth ← get_growth symbol;
     quote ← get_stock_quote symbol;
     mret ({[ "symbol" := PStr symbol;
              "company_profile" := company_profile;
              "income_statements" := income_statements;
              "balance_sheets" := balance_sheets;
              "key_metrics" := key_metrics;
              "ratios" := ratios;
              "growth" := growth;
              "quote" := quote ]} : gmap string pyval))
    (λ e, mret (error_record symbol e)).

(** The loop of [get_stocks_data], over the symbols still to fetch. *)
Fixpoint stocks_loop (symbols : list string)
    (stocks_data : list (string * gmap string pyval))
    : M (list (string * gmap string pyval)) :=
  match symbols with
  | [] => mret stocks_data
  | symbol :: rest =>
      stock_data ← get_stock_data symbol;
      _ ← sleep (Q2Qc 0.5);
      stocks_loop rest (dict_set symbol stock_data stocks_data)
  end.

Definition get_stocks_data (symbols : list string)
    : M (list (string * gmap string pyval)) :=
  stocks_loop symbols [].

(** The seven sub-requests of [get_stock_data], in the order they are
    made. *)
Definition sub_requests (symbol : string) : list (M pyval) :=
  [ get_company_profile symbol; get_income_statement symbol;
    get_balance_sheet symbol; get_key_metrics symbol; get_ratios symbol;
    get_growth symbol; get_stock_quote symbol ].

(** [r] is what a fetch of [symbol] returned. *)
Definition fetch_outcome (symbol : string) (r : gmap string pyval) : Prop :=
  ∃ w w', get_stock_data symbol w = (Ok r, w').

End fetcher.

(** Starting in [w], the actions run in order until one raises [e]; [w'] is
    the state at that moment. *)
Inductive runs_until_error : list (M pyval) → world → exn → world → Prop :=
  | raises_now g rest w e w' :
      g w = (Raise e, w') → runs_until_error (g :: rest) w e w'
  | raises_later g rest w v w1 e w' :
      g w = (Ok v, w1) → runs_until_error rest w1 e w' →
      runs_until_error (g :: rest) w e w'.

(** The trace of [k] failed attempts, each followed by the retry delay. *)
Fixpoint failed_attempts (url : string) (params : gmap string value)
    (delay : Z) (k : nat) : list event :=
  match k with
  | O => []
  | S k' =>
      EvGet url params :: EvSleep (Qc_of_Z delay)
        :: failed_attempts url params delay k'
  end.

(** The keys of a record whose fetch succeeded. *)
Definition record_keys : gset string :=
  {[ "symbol"; "company_profile"; "income_statements"; "balance_sheets";
     "key_metrics"; "ratios"; "growth"; "quote" ]}.

(** A provider that answers the first request and is down afterwards. *)
Definition net_one_answer : nat → string → gmap string value → outcome :=
  λ n _ _,
    if bool_decide (n = 0)%nat then Response (PList [ {[ "companyName" := VStr "X" ]} ])
    else RequestException "timeout".

(** A provider that fails twice and then answers with an empty list. *)
Definition net_third_time : nat → string → gmap string value → outcome :=
  λ n _ _,
    if bool_decide (n < 2)%nat then RequestException "503" else Response (PList []).

End Fetch.

(** ** analysis.py *)

Module Analysis.

(** [data.get(key, [{}])[0] if data.get(key) else {}] *)
Definition first_or_empty (data : gmap string pyval) (key : string) : res pyval :=
  match data !! key with
  | Some x => if truthy x then index0 x else Ok (PObj ∅)
  | None => Ok (PObj ∅)
  end.

(** [data.get('growth', []) if data.get('growth') else []] *)
Definition growth_or_empty (data : gmap string pyval) : pyval :=
  match data !! "growth" with
  | Some x => if truthy x then x else PList []
  | None => PList []
  end.

(** [[r for r in growth_rates if r is not None]] *)
Definition valid (growth_rates : list value) : list value :=
  filter (λ r, r ≠ VNone) growth_rates.

(** Lines 74 to 79 of [_calculate_metrics]. *)
Definition revenue_growth (growth_data : pyval) : res value :=
  n ← py_len growth_data;
  if bool_decide (5 ≤ n)%nat then
    window ← slice_to 5 growth_data;
    growth_rates ← mapM (λ g, py_get g "revenueGrowth" (num 0)) window;
    let valid_rates := valid growth_rates in
    match valid_rates with
    | [] => Ok (num 0)
    | _ => m ← np_mean valid_rates; Ok (VNum (fmul m (Qc_of_Z 100)))
    end
  else Ok (num 0).

(** The body of the [try] of [_calculate_metrics] for one symbol: the
    dictionary stored in [self.results[symbol]], or the exception raised
    before it could be stored. *)
Definition derive (symbol : string) (data : gmap string pyval)
    : res (gmap string value) :=
  let profile := default (PObj ∅) (data !! "company_profile") in
  income ← first_or_empty data "income_statements";
  balance ← first_or_empty data "balance_sheets";
  metrics ← first_or_empty data "key_metrics";
  ratios ← first_or_empty data "ratios";
  let growth_data := growth_or_empty data in
  let quote := default (PObj ∅) (data !! "quote") in
  price ← py_get quote "price" (num 0);
  pe_ratio ← py_get ratios "priceEarningsRatio" (num 0);
  ps_ratio ← py_get ratios "priceToSalesRatio" (num 0);
  pb_ratio ← py_get ratios "priceToBookRatio" (num 0);
  dividend_yield ← py_get ratios "dividendYield" (num 0) ≫= mul100;
  eps ← py_get income "eps" (num 0);
  revenue_growth_5y ← revenue_growth growth_data;
  roe ← py_get ratios "returnOnEquity" (num 0) ≫= mul100;
  debt_ratio ← py_get ratios "debtRatio" (num 0) ≫= mul100;
  name ← py_get profile "companyName" (VStr symbol);
  sector ← py_get profile "sector" (VStr "N/A");
  Ok ({[ "name" := name;
         "sector" := sector;
         "price" := price;
         "pe_ratio" := pe_ratio;
         "ps_ratio" := ps_ratio;
         "pb_ratio" := pb_ratio;
         "dividend_yield" := dividend_yield;
         "eps" := eps;
         "revenue_growth_5y" := revenue_growth_5y;
         "roe" := roe;
         "debt_ratio" := debt_ratio;
         "score" := num 0 ]} : gmap string value).

(** One iteration of the loop of [_calculate_metrics]: a record with an
    ['error'] key is skipped, and so is one whose derivation raises. *)
Definition metrics_step (results : list (string * gmap string value))
    (item : string * gmap string pyval) : list (string * gmap string value) :=
  let '(symbol, data) := item in
  if decide (is_Some (data !! "error")) then results
  else match derive symbol data with
       | Ok m => dict_set symbol m results
       | Raise _ => results
       end.

(** [self.results] after [_calculate_metrics], from the empty dictionary
    of [__init__]. *)
Definition _calculate_metrics (stocks_data : list (string * gmap string pyval))
    : list (string * gmap string value) :=
  foldl metrics_step [] stocks_data.

(** [metrics[key]] *)
Definition getitem (metrics : gmap string value) (key : string) : res value :=
  match metrics !! key with
  | Some v => Ok v
  | None => Raise (PyExc KeyError ("'" +:+ key +:+ "'"))
  end.

(** The body of the loop of [_calculate_scores] up to the update: the
    score of one metrics record. *)
Definition score (metrics : gmap string value) : res Z :=
  let score := 0 in
  low_pe ← (a ← getitem metrics "pe_ratio" ≫= λ v, py_gt v 0;
            if a : bool then getitem metrics "pe_ratio" ≫= λ v, py_lt v 15
            else Ok false);
  let score := if low_pe : bool then score + 3 else score in
  high_dividend ← getitem metrics "dividend_yield" ≫= λ v, py_gt v 3;
  let score := if high_dividend : bool then score + 2 else score in
  high_growth ← getitem metrics "revenue_growth_5y" ≫= λ v, py_gt v 10;
  let score := if high_growth : bool then score + 3 else score in
  low_debt ← getitem metrics "debt_ratio" ≫= λ v, py_lt v 40;
  let score := if low_debt : bool then score + 2 else score in
  Ok score.

(** The loop of [_calculate_scores] over the items still to visit;
    [self.results[symbol]['score'] = score] updates the entry in place. An
    exception leaves the loop and the method. *)
Fixpoint scores_loop (items results : list (string * gmap string value))
    : res (list (string * gmap string value)) :=
  match items with
  | [] => Ok results
  | (symbol, metrics) :: rest =>
      s ← score metrics;
      scores_loop rest (dict_alter (<["score" := num s]>) symbol results)
  end.

Definition _calculate_scores (results : list (string * gmap string value))
    : res (list (string * gmap string value)) :=
  scores_loop results results.

Definition analyze (stocks_data : list (string * gmap string pyval))
    : res (list (string * gmap string value)) :=
  _calculate_scores (_calculate_metrics stocks_data).

(** The ['score'] cell of a row of the data frame. *)
Definition score_cell (row : string * gmap string value) : option Qc :=
  match row.2 !! "score" with
  | Some (VNum q) => Some q
  | _ => None
  end.

Definition score_key (row : string * gmap string value) : Qc :=
  default (Qc_of_Z 0) (score_cell row).

(** Row [a] may stand before row [b] in descending score order. *)
Definition score_ge (a b : string * gmap string value) : Prop :=
  (score_key b ≤ score_key a)%Qc.

#[global] Instance score_ge_dec : RelDecision score_ge.
Proof. intros a b. unfold score_ge. apply _. Defined.

(** [df.head(n)]: the first [n] rows, and for a negative [n] all rows but
    the last [-n]. *)
Definition df_head {A : Type} (n : Z) (rows : list A) : list A :=
  if bool_decide (0 ≤ n) then take (Z.to_nat n) rows
  else take (length rows - Z.to_nat (- n))%nat rows.

(** What [df.sort_values(by='score', ascending=False)] promises: the rows
    in non-increasing score order. The call leaves the algorithm at
    pandas' default [kind='quicksort'], which is not a stable one (only
    [kind='mergesort'] and [kind='stable'] are): the order among rows of
    equal score is the one the algorithm happens to leave
    ([sort_values_quicksort] below). *)
Definition sort_values (rows sorted : list (string * gmap string value)) : Prop :=
  rows ≡ₚ sorted ∧ Sorted score_ge sorted.

(** [get_top_stocks(top_n)] on [self.results]. A data frame built from an
    empty dictionary has no columns, and sorting it by ['score'] raises
    [KeyError]. *)
Inductive get_top_stocks (results : list (string * gmap string value)) (top_n : Z)
    : res (list (string * gmap string value)) → Prop :=
  | top_no_column :
      results = [] →
      get_top_stocks results top_n (Raise (PyExc KeyError "'score'"))
  | top_rows sorted :
      results ≠ [] →
      Forall (λ row, is_Some (score_cell row)) results →
      sort_values results sorted →
      get_top_stocks results top_n (Ok (df_head top_n sorted)).

(** [analyze_stocks(stocks_data, top_n)] up to the data frame it hands to
    the writers. *)
Definition analyze_stocks (stocks_data : list (string * gmap string pyval))
    (top_n : Z) (out : res (list (string * gmap string value))) : Prop :=
  match analyze stocks_data with
  | Ok results => get_top_stocks results top_n out
  | Raise e => out = Raise e
  end.

(** One admissible sorting algorithm, to run the ranking on examples. *)
Definition sort_values_merge (rows : list (string * gmap string value))
    : list (string * gmap string value) :=
  merge_sort score_ge rows.

(** *** The sort pandas runs

    [sort_values] leaves the algorithm at pandas' default
    [kind='quicksort'], which is numpy's introsort on an array of row
    positions ([npysort/quicksort], [aquicksort]): ranges of more than 17
    positions are partitioned around a median of three, shorter ones are
    sorted by insertion. The definitions below follow that loop, with
    [tosort] as a list and the pointers [pl], [pr], [pi], [pj] as positions
    in it. *)

Section argsort.

(** The array of keys being sorted. *)
Variable v : list Qc.

(** [v[i]] *)
Definition key_at (i : nat) : Qc := default (Qc_of_Z 0) (v !! i).

(** [*p] *)
Definition deref (tosort : list nat) (p : nat) : nat := default 0%nat (tosort !! p).

(** [INTP_SWAP] of [*p] and [*q] *)
Definition intp_swap (tosort : list nat) (p q : nat) : list nat :=
  <[p := deref tosort q]> (<[q := deref tosort p]> tosort).

(** [INTP_SWAP] of [*p] and [*q] if [LT(v[*p], v[*q])] *)
Definition swap_if_less (tosort : list nat) (p q : nat) : list nat :=
  if bool_decide (key_at (deref tosort p) < key_at (deref tosort q))%Qc
  then intp_swap tosort p q else tosort.

(** [do ++pi; while (LT(v[*pi], vp))] *)
Fixpoint scan_up (fuel : nat) (tosort : list nat) (vp : Qc) (pi : nat) : nat :=
  match fuel with
  | O => pi
  | S fuel =>
      let pi := S pi in
      if bool_decide (key_at (deref tosort pi) < vp)%Qc
      then scan_up fuel tosort vp pi else pi
  end.

(** [do --pj; while (LT(vp, v[*pj]))] *)
Fixpoint scan_down (fuel : nat) (tosort : list nat) (vp : Qc) (pj : nat) : nat :=
  match fuel with
  | O => pj
  | S fuel =>
      let pj := pred pj in
      if bool_decide (vp < key_at (deref tosort pj))%Qc
      then scan_down fuel tosort vp pj else pj
  end.

(** The [for (;;)] loop of the partition: both scans, then a swap unless
    the pointers have met. It returns the array and the final [pi]. *)
Fixpoint partition_loop (fuel : nat) (tosort : list nat) (vp : Qc)
    (pi pj : nat) : list nat * nat :=
  match fuel with
  | O => (tosort, pi)
  | S fuel =>
      let pi := scan_up (length tosort) tosort vp pi in
      let pj := scan_down (length tosort) tosort vp pj in
      if bool_decide (pj ≤ pi)%nat then (tosort, pi)
      else partition_loop fuel (intp_swap tosort pi pj) vp pi pj
  end.

(** One partition of the range from [pl] to [pr]: the median of the first,
    the middle and the last element becomes the pivot and is parked at
    [pr - 1], the loop runs, and the pivot is put at [pi]. *)
Definition partition (tosort : list nat) (pl pr : nat) : list nat * nat :=
  let pm := (pl + (pr - pl) / 2)%nat in
  let tosort := swap_if_less tosort pm pl in
  let tosort := swap_if_less tosort pr pm in
  let tosort := swap_if_less tosort pm pl in
  let vp := key_at (deref tosort pm) in
  let tosort := intp_swap tosort pm (pr - 1) in
  let '(tosort, pi) := partition_loop (length tosort) tosort vp pl (pr - 1) in
  (intp_swap tosort pi (pr - 1), pi).

(** [while ((pr - pl) > SMALL_QUICKSORT)], with [SMALL_QUICKSORT] 16:
    partition, push the larger part with the decremented depth, go on with
    the smaller one. *)
Fixpoint partition_while (fuel : nat) (tosort : list nat) (pl pr : nat)
    (cdepth : Z) (stack : list (nat * nat * Z))
    : list nat * nat * nat * Z * list (nat * nat * Z) :=
  match fuel with
  | O => (tosort, pl, pr, cdepth, stack)
  | S fuel =>
      if bool_decide (16 < pr - pl)%nat then
        let '(tosort, pi) := partition tosort pl pr in
        let cdepth := cdepth - 1 in
        if bool_decide (pi - pl < pr - pi)%nat
        then partition_while fuel tosort pl (pi - 1) cdepth
               ((S pi, pr, cdepth) :: stack)
        else partition_while fuel tosort (S pi) pr cdepth
               ((pl, (pi - 1)%nat, cdepth) :: stack)
      else (tosort, pl, pr, cdepth, stack)
  end.

(** [while (pj > pl && LT(vp, v[*pk])) *pj-- = *pk--;] followed by
    [*pj = vi]. *)
Fixpoint insert_down (fuel : nat) (tosort : list nat) (vi : nat) (pl pj : nat)
    : list nat :=
  match fuel with
  | O => <[pj := vi]> tosort
  | S fuel =>
      if bool_decide (pl < pj)%nat
         && bool_decide (key_at vi < key_at (deref tosort (pred pj)))%Qc
      then insert_down fuel (<[pj := deref tosort (pred pj)]> tosort) vi pl (pred pj)
      else <[pj := vi]> tosort
  end.

(** The insertion sort of the range from [pl] to [pr]. *)
Definition insertion_sort (tosort : list nat) (pl pr : nat) : list nat :=
  foldl (λ tosort pi, insert_down pi tosort (deref tosort pi) pl pi)
    tosort (seq (S pl) (pr - pl)).

(** The [while (1)] loop. Once the depth limit is used up numpy sorts the
    range by heapsort, which is not modelled: the result is [None] then. *)
Fixpoint aquicksort_loop (fuel : nat) (tosort : list nat) (pl pr : nat)
    (cdepth : Z) (stack : list (nat * nat * Z)) : option (list nat) :=
  match fuel with
  | O => None
  | S fuel =>
      if bool_decide (cdepth < 0) then None
      else
        let '(tosort, pl, pr, cdepth, stack) :=
          partition_while (length tosort) tosort pl pr cdepth stack in
        let tosort := insertion_sort tosort pl pr in
        match stack with
        | [] => Some tosort
        | (pl, pr, cdepth) :: stack => aquicksort_loop fuel tosort pl pr cdepth stack
        end
  end.

(** [np.argsort(v)]: the positions of [v] in ascending order of their
    keys. The depth limit is twice the position of the highest bit of the
    length. *)
Definition argsort : option (list nat) :=
  let num := length v in
  if bool_decide (num = 0)%nat then Some []
  else aquicksort_loop (S num) (seq 0 num) 0 (num - 1)
         (2 * Z.log2 (Z.of_nat num)) [].

End argsort.

(** [nargsort(items, kind='quicksort', ascending=False)] of pandas, for
    items without NaN: keys and positions are reversed, the reversed keys
    are argsorted, and the positions they select are reversed again. *)
Definition nargsort_descending (items : list Qc) : option (list nat) :=
  let idx := seq 0 (length items) in
  let non_nans := reverse items in
  let non_nan_idx := reverse idx in
  perm ← argsort non_nans;
  Some (reverse ((λ p, default 0%nat (non_nan_idx !! p)) <$> perm)).

(** The rows [df.sort_values(by='score', ascending=False)] returns: the
    rows taken at the positions of the indexer. *)
Definition sort_values_quicksort (rows : list (string * gmap string value))
    : option (list (string * gmap string value)) :=
  match nargsort_descending (score_key <$> rows) with
  | Some indexer => Some (omap (λ i, rows !! i) indexer)
  | None => None
  end.

End Analysis.

(** ** Vocabulary of the specification *)

Module Spec.
Import Analysis.

(** The points of one scoring rule. *)
Definition points (P : Prop) `{!Decision P} (n : Z) : Z :=
  if decide P then n else 0.

(** The fields of a derived metrics record. *)
Definition metric_keys : gset string :=
  {[ "name"; "sector"; "price"; "pe_ratio"; "ps_ratio"; "pb_ratio";
     "dividend_yield"; "eps"; "revenue_growth_5y"; "roe"; "debt_ratio";
     "score" ]}.

(** The growth sequence of an aggregate record. *)
Definition growth_entries (data : gmap string pyval) : list (gmap string value) :=
  match data !! "growth" with
  | Some (PList l) => l
  | _ => []
  end.

(** The revenue-growth field of a growth entry, 0 when the entry has none. *)
Definition rate (g : gmap string value) : value :=
  default (num 0) (g !! "revenueGrowth").

(** The numbers among the revenue-growth fields of a window, an entry
    without the field counting as 0. *)
Definition nonnull_rates (window : list (gmap string value)) : list Qc :=
  omap (λ g, match rate g with VNum q => Some q | _ => None end) window.

(** The revenue-growth values a window holds: the numbers among the fields
    that are there. *)
Definition present_rates (window : list (gmap string value)) : list Qc :=
  omap (λ g, match g !! "revenueGrowth" with
             | Some (VNum q) => Some q
             | _ => None
             end) window.

(** The sum of [acc] and the numbers [qs], each taken as a float, in
    their order. *)
Fixpoint total (acc : Qc) (qs : list Qc) : Qc :=
  match qs with
  | [] => acc
  | q :: qs' => total (fadd acc (round64 q)) qs'
  end.

(** The arithmetic mean of floats: their sum over their number. *)
Definition arithmetic_mean (qs : list Qc) : Qc :=
  fdiv (total (Qc_of_Z 0) qs) (Qc_of_Z (Z.of_nat (length qs))).

(** The 5-year average revenue growth in percent as the specification
    words it: 0 for fewer than 5 entries, else 100 times the mean of the
    non-null revenue-growth values of the first 5 entries, 0 if there is
    none. *)
Definition revenue_growth_5y_claimed (growth : list (gmap string value)) : Qc :=
  if decide (length growth < 5)%nat then Qc_of_Z 0
  else match present_rates (take 5 growth) with
       | [] => Qc_of_Z 0
       | qs => fmul (arithmetic_mean qs) (Qc_of_Z 100)
       end.

(** The same with an entry that lacks the field counted as a growth of
    0. *)
Definition revenue_growth_5y_spec (growth : list (gmap string value)) : Qc :=
  if decide (length growth < 5)%nat then Qc_of_Z 0
  else match nonnull_rates (take 5 growth) with
       | [] => Qc_of_Z 0
       | qs => fmul (arithmetic_mean qs) (Qc_of_Z 100)
       end.

(** Rows of equal score stand in [out] in the order they have in [input]. *)
Definition keeps_tie_order (input out : list (string * gmap string value)) : Prop :=
  ∀ (i j : nat) a b,
    (i < j)%nat → out !! i = Some a → out !! j = Some b →
    score_cell a = score_cell b →
    ∃ i' j' : nat, (i' < j')%nat ∧ input !! i' = Some a ∧ input !! j' = Some b.

(** A single-object sub-record (profile, quote) of an aggregate record, if
    it is there. *)
Definition object_of (data : gmap string pyval) (key : string)
    : option (gmap string value) :=
  match data !! key with
  | Some (PObj o) => Some o
  | _ => None
  end.

(** The latest entry of a list sub-record (income statements, ratios), if
    there is one. *)
Definition latest (data : gmap string pyval) (key : string)
    : option (gmap string value) :=
  match data !! key with
  | Some (PList (o :: _)) => Some o
  | _ => None
  end.

(** A field of a sub-record, or the default when the sub-record or the
    field is absent. *)
Definition field_or (sub : option (gmap string value)) (key : string)
    (default_ : value) : value :=
  default default_ (sub ≫= λ o, o !! key).

(** An entry is skipped when it carries an error or its derivation raises. *)
Definition skipped (symbol : string) (data : gmap string pyval) : Prop :=
  is_Some (data !! "error") ∨ ∃ e, derive symbol data = Raise e.

(** Scoring one row: its metrics with the score stored. *)
Definition score_row (row : string * gmap string value)
    : res (string * gmap string value) :=
  s ← score row.2; Ok (row.1, <["score" := num s]> row.2).

End Spec.

(** ** Sample data *)

Module Samples.
Import Fetch Analysis.

Definition metrics_best : gmap string value :=
  {[ "name" := VStr "AAA"; "pe_ratio" := num 12; "dividend_yield" := num 4;
     "revenue_growth_5y" := num 12; "debt_ratio" := num 30; "score" := num 0 ]}.

Definition metrics_worst : gmap string value :=
  {[ "pe_ratio" := num 15; "dividend_yield" := num 3;
     "revenue_growth_5y" := num 10; "debt_ratio" := num 40 ]}.

(** A ratios row whose P/E is an explicit null. *)
Definition data_null_pe : gmap string pyval :=
  {[ "symbol" := PStr "CCC";
     "ratios" := PList [ {[ "priceEarningsRatio" := VNone;
                            "dividendYield" := float 0.04 ]} ] ]}.

Definition growth_entry (r : value) : gmap string value :=
  {[ "revenueGrowth" := r ]}.

(** Growth history [0.10, 0.20, null, 0.05, 0.05]. *)
Definition growth_with_null : list (gmap string value) :=
  [ growth_entry (float 0.10); growth_entry (float 0.20);
    growth_entry VNone;
    growth_entry (float 0.05); growth_entry (float 0.05) ].

Definition data_growth_null : gmap string pyval :=
  {[ "symbol" := PStr "AAA"; "growth" := PList growth_with_null ]}.

(** Growth history [0.10, -, 0.10, 0.10, 0.10]: the second entry has a date
    and no revenue growth. *)
Definition growth_with_gap : list (gmap string value) :=
  [ growth_entry (float 0.10); {[ "date" := VStr "2023-12-31" ]};
    growth_entry (float 0.10); growth_entry (float 0.10);
    growth_entry (float 0.10) ].

Definition data_growth_gap : gmap string pyval :=
  {[ "symbol" := PStr "AAA"; "growth" := PList growth_with_gap ]}.

(** Growth history [0.1, 0.2, 0.0, null, null]. *)
Definition growth_rounded : list (gmap string value) :=
  [ growth_entry (float 0.1); growth_entry (float 0.2);
    growth_entry (float 0.0); growth_entry VNone; growth_entry VNone ].

Definition data_growth_rounded : gmap string pyval :=
  {[ "symbol" := PStr "EEE"; "growth" := PList growth_rounded ]}.

(** The record of the end-to-end example of the specification: P/E 12,
    dividend yield 0.04, debt ratio 0.30, five growth rates of 0.12 and an
    EPS of 5.0. *)
Definition data_complete : gmap string pyval :=
  {[ "symbol" := PStr "AAA";
     "company_profile" := PObj {[ "companyName" := VStr "Triple A" ]};
     "income_statements" := PList [ {[ "eps" := float 5.0 ]} ];
     "ratios" := PList [ {[ "priceEarningsRatio" := num 12;
                            "dividendYield" := float 0.04;
                            "debtRatio" := float 0.30 ]} ];
     "growth" := PList (replicate 5 (growth_entry (float 0.12)));
     "quote" := PObj {[ "price" := num 100 ]} ]}.

(** No sub-record but the quote. *)
Definition data_quote_only : gmap string pyval :=
  {[ "symbol" := PStr "BBB"; "quote" := PObj {[ "price" := num 7 ]} ]}.

(** A ratios row whose dividend yield is an explicit null. *)
Definition data_null_dividend : gmap string pyval :=
  {[ "symbol" := PStr "DDD";
     "ratios" := PList [ {[ "priceEarningsRatio" := num 12;
                            "dividendYield" := VNone ]} ] ]}.

(** Scored rows: a symbol and its score. *)
Definition row (symbol : string) (points : Z) : string * gmap string value :=
  (symbol, {[ "name" := VStr symbol; "score" := num points ]}).

Definition rows_tied : list (string * gmap string value) :=
  [ row "A" 2; row "B" 2 ].

Definition rows_three : list (string * gmap string value) :=
  [ row "A" 10; row "B" 2; row "C" 5 ].

(** Eighteen symbols. *)
Definition symbols_eighteen : list string :=
  [ "S01"; "S02"; "S03"; "S04"; "S05"; "S06"; "S07"; "S08"; "S09";
    "S10"; "S11"; "S12"; "S13"; "S14"; "S15"; "S16"; "S17"; "S18" ].

(** A batch in which the provider has a quote for each of them and
    nothing else, so that each scores 2. *)
Definition batch_eighteen : list (string * gmap string pyval) :=
  (λ symbol, (symbol, {[ "symbol" := PStr symbol;
                         "quote" := PObj {[ "price" := num 7 ]} ]}))
    <$> symbols_eighteen.

(** The positions [nargsort] returns for eighteen equal keys. *)
Definition indexer_eighteen : list nat :=
  [ 0; 1; 16; 15; 14; 13; 12; 11; 10; 9; 8; 7; 6; 5; 4; 3; 2; 17 ]%nat.

(** A batch in which every fetch failed. *)
Definition batch_all_failed : list (string * gmap string pyval) :=
  [ ("AAA", error_record "AAA"
              (PyExc Exception "API-Anfrage fehlgeschlagen: timeout"));
    ("BBB", error_record "BBB"
              (PyExc Exception "API-Anfrage fehlgeschlagen: 503")) ].

End Samples.

(** ** Vocabulary for the effects of a fetch *)

Module Effects.
Import Fetch Analysis Spec.

(** The number of requests in a piece of trace. *)
Fixpoint count_gets (evs : list event) : nat :=
  match evs with
  | [] => 0
  | EvGet _ _ :: evs' => S (count_gets evs')
  | EvSleep _ :: evs' => count_gets evs'
  end.

(** The number of sleeps of the given length in a piece of trace. *)
Fixpoint count_sleeps (seconds : Qc) (evs : list event) : nat :=
  match evs with
  | [] => 0
  | EvGet _ _ :: evs' => count_sleeps seconds evs'
  | EvSleep s :: evs' =>
      if decide (s = seconds) then S (count_sleeps seconds evs')
      else count_sleeps seconds evs'
  end.

(** The events one logical request may add: a request to its own URL with
    the credential set, or a sleep of the retry delay. *)
Definition request_event (self : FinancialDataFetcher) (ev : event) : Prop :=
  match ev with
  | EvGet url params =>
      (∃ endpoint, url = base_url self +:+ "/" +:+ endpoint)
      ∧ params !! "apikey" = Some (VStr (api_key self))
  | EvSleep s => s = Qc_of_Z (retry_delay self)
  end.

(** The action extends the trace by events that satisfy [P], at most [n]
    of them requests, and counts the requests it sends. *)
Definition adds {A : Type} (P : event → Prop) (n : nat) (g : M A) : Prop :=
  ∀ w r w', g w = (r, w') →
    ∃ evs, trace w' = trace w ++ evs
      ∧ sent w' = (sent w + count_gets evs)%nat
      ∧ (count_gets evs ≤ n)%nat
      ∧ Forall P evs.

(** The keys of [symbols] in the order of their first occurrence: the key
    order of a dictionary filled by [d[symbol] = ...] in a loop. *)
Fixpoint first_occurrences (symbols : list string) : list string :=
  match symbols with
  | [] => []
  | s :: rest => s :: filter (λ x, x ≠ s) (first_occurrences rest)
  end.

(** The record [get_stock_data] returns when no sub-request raised. *)
Definition full_record (symbol : string)
    (company_profile income_statements balance_sheets key_metrics ratios
       growth quote : pyval) : gmap string pyval :=
  {[ "symbol" := PStr symbol;
     "company_profile" := company_profile;
     "income_statements" := income_statements;
     "balance_sheets" := balance_sheets;
     "key_metrics" := key_metrics;
     "ratios" := ratios;
     "growth" := growth;
     "quote" := quote ]}.

(** What [_calculate_metrics] stores for one entry, if anything. *)
Definition derived_row (item : string * gmap string pyval)
    : option (string * gmap string value) :=
  if decide (is_Some (item.2 !! "error")) then None
  else match derive item.1 item.2 with
       | Ok m => Some (item.1, m)
       | Raise _ => None
       end.

(** The sub-record is absent or an object. *)
Definition absent_or_object (data : gmap string pyval) (key : string) : Prop :=
  match data !! key with
  | None | Some (PObj _) => True
  | _ => False
  end.

(** The sub-record is absent, [None] or a list of objects. *)
Definition absent_or_list (data : gmap string pyval) (key : string) : Prop :=
  match data !! key with
  | None | Some PNone | Some (PList _) => True
  | _ => False
  end.

(** A revenue-growth value the mean can take or drop: a null, or a number
    within the range of a 64-bit integer. *)
Definition number_or_null (v : value) : Prop :=
  match v with
  | VNone => True
  | VNum q => (Qc_of_Z (- 2 ^ 63) < q ∧ q < Qc_of_Z (2 ^ 63))%Qc
  | VStr _ => False
  end.

(** A field that can be multiplied by 100: it is absent, a number or a
    string. *)
Definition absent_number_or_string (r : gmap string value) (field : string) : Prop :=
  match r !! field with
  | None | Some (VNum _) | Some (VStr _) => True
  | Some VNone => False
  end.

(** An aggregate record of the shape the provider documents: objects for
    the profile and the quote, lists of objects for the five series,
    numbers or strings in the three ratios that are turned into
    percentages, and numbers or nulls as the revenue growth of the five
    latest growth entries. *)
Definition well_shaped (data : gmap string pyval) : Prop :=
  absent_or_object data "company_profile"
  ∧ absent_or_object data "quote"
  ∧ Forall (absent_or_list data)
      ["income_statements"; "balance_sheets"; "key_metrics"; "ratios"; "growth"]
  ∧ (∀ r, latest data "ratios" = Some r →
       Forall (absent_number_or_string r)
         ["dividendYield"; "returnOnEquity"; "debtRatio"])
  ∧ Forall (λ g, number_or_null (rate g)) (take 5 (growth_entries data)).

End Effects.

(** * Properties *)

Import Fetch Analysis Spec.

(** ** The [res] and [M] monads *)

Lemma res_bind_Ok {A B : Type} (f : A → res B) (m : res A) (b : B) :
  m ≫= f = Ok b → ∃ a, m = Ok a ∧ f a = Ok b.
Proof. destruct m as [a|e]; simpl; [eauto | discriminate]. Qed.

Lemma res_bind_Ok_l {A B : Type} (f : A → res B) (m : res A) (a : A) :
  m = Ok a → m ≫= f = f a.
Proof. by intros ->. Qed.

Lemma res_bind_ok {A B : Type} (f : A → res B) (a : A) : Ok a ≫= f = f a.
Proof. done. Qed.

Lemma res_bind_raise {A B : Type} (f : A → res B) (e : exn) :
  Raise e ≫= f = Raise e.
Proof. done. Qed.

Lemma is_ok_inv {A : Type} (r : res A) : is_ok r = true → ∃ a, r = Ok a.
Proof. destruct r; [eauto | discriminate]. Qed.

(** Splits a hypothesis [x ← m; k = Ok b] into its steps. *)
Ltac res_inv H :=
  repeat match type of H with
  | mbind _ _ = Ok _ =>
      let a := fresh "a" in
      let Ha := fresh "Ha" in
      apply res_bind_Ok in H as (a & Ha & H)
  end.

(** ** Binary64 arithmetic *)

(** On the sample numbers, sums, products and quotients rounded by
    [round64] are the ones the binary64 arithmetic of the kernel gives. *)
Lemma round64_agrees_with_binary64 :
  Forall (λ f,
    Forall (λ g, agrees fadd PrimFloat.add f g
                 ∧ agrees fmul PrimFloat.mul f g
                 ∧ agrees fdiv PrimFloat.div f g) binary64_samples)
    binary64_samples.
Proof. apply (bool_decide_unpack _). by vm_compute. Qed.

(** A literal with a short binary expansion is a float as it stands. *)
Lemma float_half : float 0.5 = VNum (Q2Qc 0.5).
Proof. unfold float. f_equal; by apply Qc_is_canon. Qed.

(** [0.07 * 100] is the float next above 7. *)
Lemma mul100_rounds :
  mul100 (float 0.07) = Ok (VNum (Q2Qc (7881299347898369 # 1125899906842624))).
Proof. unfold mul100, float. do 2 f_equal; by apply Qc_is_canon. Qed.

(** ** Scoring *)

Lemma py_gt_num (q : Qc) (c : Z) :
  py_gt (VNum q) c = Ok (bool_decide (Qc_of_Z c < q)%Qc).
Proof. done. Qed.

Lemma score_numeric (metrics : gmap string value) (pe dy rg dr : Qc) :
  metrics !! "pe_ratio" = Some (VNum pe) →
  metrics !! "dividend_yield" = Some (VNum dy) →
  metrics !! "revenue_growth_5y" = Some (VNum rg) →
  metrics !! "debt_ratio" = Some (VNum dr) →
  score metrics =
    Ok (points (Qc_of_Z 0 < pe ∧ pe < Qc_of_Z 15)%Qc 3
        + points (Qc_of_Z 3 < dy)%Qc 2
        + points (Qc_of_Z 10 < rg)%Qc 3
        + points (dr < Qc_of_Z 40)%Qc 2).
Proof.
  intros Hpe Hdy Hrg Hdr. unfold score, getitem, points.
  rewrite Hpe, Hdy, Hrg, Hdr. simpl.
  repeat case_bool_decide; simpl; repeat case_decide;
    try (f_equal; lia); exfalso; tauto.
Qed.

(** The score of a record with numeric fields lies between 0 and 10. *)
Lemma score_range (metrics : gmap string value) (pe dy rg dr : Qc) :
  metrics !! "pe_ratio" = Some (VNum pe) →
  metrics !! "dividend_yield" = Some (VNum dy) →
  metrics !! "revenue_growth_5y" = Some (VNum rg) →
  metrics !! "debt_ratio" = Some (VNum dr) →
  ∃ s, score metrics = Ok s ∧ 0 ≤ s ≤ 10.
Proof.
  intros Hpe Hdy Hrg Hdr. eexists. split; [by eapply score_numeric|].
  unfold points. repeat case_decide; lia.
Qed.

Lemma score_max_attained : score Samples.metrics_best = Ok 10.
Proof. reflexivity. Qed.

Lemma score_min_attained : score Samples.metrics_worst = Ok 0.
Proof. reflexivity. Qed.

(** The score reads four fields only. *)
Lemma score_reads_four_fields (m1 m2 : gmap string value) :
  m1 !! "pe_ratio" = m2 !! "pe_ratio" →
  m1 !! "dividend_yield" = m2 !! "dividend_yield" →
  m1 !! "revenue_growth_5y" = m2 !! "revenue_growth_5y" →
  m1 !! "debt_ratio" = m2 !! "debt_ratio" →
  score m1 = score m2.
Proof. intros H1 H2 H3 H4. unfold score, getitem. by rewrite H1, H2, H3, H4. Qed.

(** C1. The score of a metrics record with numeric fields is the sum of
    four independent rules: 3 points if 0 < P/E < 15, 2 points if the
    dividend yield exceeds 3, 3 points if the 5-year revenue growth exceeds
    10, 2 points if the debt ratio is below 40, all inequalities strict;
    and any record with the same four fields has the same score. *)
Theorem score_four_rules (metrics : gmap string value) (pe dy rg dr : Qc) :
  metrics !! "pe_ratio" = Some (VNum pe) →
  metrics !! "dividend_yield" = Some (VNum dy) →
  metrics !! "revenue_growth_5y" = Some (VNum rg) →
  metrics !! "debt_ratio" = Some (VNum dr) →
  score metrics =
    Ok (points (Qc_of_Z 0 < pe ∧ pe < Qc_of_Z 15)%Qc 3
        + points (Qc_of_Z 3 < dy)%Qc 2
        + points (Qc_of_Z 10 < rg)%Qc 3
        + points (dr < Qc_of_Z 40)%Qc 2)
  ∧ ∀ metrics' : gmap string value,
      metrics' !! "pe_ratio" = metrics !! "pe_ratio" →
      metrics' !! "dividend_yield" = metrics !! "dividend_yield" →
      metrics' !! "revenue_growth_5y" = metrics !! "revenue_growth_5y" →
      metrics' !! "debt_ratio" = metrics !! "debt_ratio" →
      score metrics' = score metrics.
Proof.
  intros Hpe Hdy Hrg Hdr. split; [by apply score_numeric|].
  intros metrics'. apply score_reads_four_fields.
Qed.

Lemma score_four_rules_witness :
  score Samples.metrics_best = Ok 10
  ∧ score (<["name" := VStr "ZZZ"]> Samples.metrics_best) = Ok 10.
Proof.
  destruct (score_four_rules Samples.metrics_best
              (Qc_of_Z 12) (Qc_of_Z 4) (Qc_of_Z 12) (Qc_of_Z 30))
    as [Hsum Hsame]; [reflexivity..|].
  split; [exact Hsum|].
  rewrite Hsame; [exact Hsum|reflexivity..].
Defined.

(** C8. Scoring a derived record can raise: a ratios row whose
    [priceEarningsRatio] is null derives to a record whose [pe_ratio] is
    [None], the comparison [None > 0] raises [TypeError] in
    [_calculate_scores], and [analyze] ends with that exception. *)
Theorem scoring_raises_on_null_pe :
  ∃ m, derive "CCC" Samples.data_null_pe = Ok m
       ∧ m !! "pe_ratio" = Some VNone
       ∧ score m = Raise (PyExc TypeError
           "'>' not supported between instances of 'NoneType' and 'int'")
       ∧ analyze [("CCC", Samples.data_null_pe)] = Raise (PyExc TypeError
           "'>' not supported between instances of 'NoneType' and 'int'").
Proof. eexists. repeat split; reflexivity. Qed.

(** ** Metric derivation *)

Ltac res_inv_all :=
  repeat match goal with
  | H : mbind _ _ = Ok _ |- _ =>
      let a := fresh "a" in
      let Ha := fresh "Ha" in
      apply res_bind_Ok in H as (a & Ha & H)
  end.

Lemma py_get_Ok (x : pyval) (key : string) (d v : value) :
  py_get x key d = Ok v → ∃ o, x = PObj o ∧ v = default d (o !! key).
Proof. destruct x; simpl; intros [= <-] || discriminate. eauto. Qed.

Lemma py_get_obj (o : gmap string value) (key : string) (d : value) :
  py_get (PObj o) key d = Ok (default d (o !! key)).
Proof. done. Qed.

(** What a successful derivation read and stored. *)
Lemma derive_Ok (symbol : string) (data : gmap string pyval) (m : gmap string value) :
  derive symbol data = Ok m →
  ∃ (profile income ratios quote : gmap string value)
    (dividend_yield rg roe debt_ratio : value),
    default (PObj ∅) (data !! "company_profile") = PObj profile
    ∧ first_or_empty data "income_statements" = Ok (PObj income)
    ∧ first_or_empty data "ratios" = Ok (PObj ratios)
    ∧ default (PObj ∅) (data !! "quote") = PObj quote
    ∧ mul100 (default (num 0) (ratios !! "dividendYield")) = Ok dividend_yield
    ∧ revenue_growth (growth_or_empty data) = Ok rg
    ∧ mul100 (default (num 0) (ratios !! "returnOnEquity")) = Ok roe
    ∧ mul100 (default (num 0) (ratios !! "debtRatio")) = Ok debt_ratio
    ∧ m = {[ "name" := default (VStr symbol) (profile !! "companyName");
             "sector" := default (VStr "N/A") (profile !! "sector");
             "price" := default (num 0) (quote !! "price");
             "pe_ratio" := default (num 0) (ratios !! "priceEarningsRatio");
             "ps_ratio" := default (num 0) (ratios !! "priceToSalesRatio");
             "pb_ratio" := default (num 0) (ratios !! "priceToBookRatio");
             "dividend_yield" := dividend_yield;
             "eps" := default (num 0) (income !! "eps");
             "revenue_growth_5y" := rg;
             "roe" := roe;
             "debt_ratio" := debt_ratio;
             "score" := num 0 ]}.
Proof.
  unfold derive. intros H. cbv zeta in H. res_inv_all.
  repeat match goal with
  | H : py_get _ _ _ = Ok _ |- _ => apply py_get_Ok in H as (? & ? & ?)
  end.
  simplify_eq.
  match goal with
  | H1 : ?t = PObj ?a, H2 : ?t = PObj ?b |- _ =>
      rewrite H1 in H2; injection H2 as <-
  end.
  do 8 eexists. repeat split; eauto.
Qed.

Lemma mapM_get_rates (w : list (gmap string value)) :
  mapM (λ g, py_get g "revenueGrowth" (num 0)) (PObj <$> w) = Ok (rate <$> w).
Proof.
  induction w as [|g w IH]; [done|].
  rewrite !fmap_cons. change (mapM ?f (?x :: ?l)) with (y ← f x; k ← mapM f l; mret (y :: k)).
  by rewrite IH.
Qed.

(** Averaging succeeds only on numbers, and then the non-null rates are
    exactly the numbers of the window. *)
Lemma valid_rates_numbers (w : list (gmap string value)) (qs : list Qc) :
  mapM as_num (valid (rate <$> w)) = Ok qs → qs = nonnull_rates w.
Proof.
  revert qs. induction w as [|g w IH]; intros qs; simpl.
  - by intros [= <-].
  - unfold valid, nonnull_rates in *. simpl. rewrite filter_cons.
    destruct (rate g) as [|q|s]; simpl.
    + apply IH.
    + intros (k & Hk & [= <-])%res_bind_Ok. f_equal. by apply IH.
    + discriminate.
Qed.

Lemma growth_or_empty_cases (data : gmap string pyval) :
  (growth_or_empty data = PList (growth_entries data))
  ∨ (∃ s, growth_or_empty data = PStr s ∧ growth_entries data = [])
  ∨ (∃ o, growth_or_empty data = PObj o ∧ growth_entries data = []).
Proof.
  unfold growth_or_empty, growth_entries.
  destruct (data !! "growth") as [[|s|o|l]|]; simpl; eauto.
  - destruct (negb _); eauto.
  - destruct (negb _); eauto.
  - destruct l; simpl; eauto.
Qed.

Lemma revenue_growth_str (s : string) (v : value) :
  revenue_growth (PStr s) = Ok v → v = num 0.
Proof.
  unfold revenue_growth. simpl. case_bool_decide as Hlen; [|by intros [= <-]].
  destruct s as [|c s]; simpl in *; [lia|]. discriminate.
Qed.

Lemma revenue_growth_obj (o : gmap string value) (v : value) :
  revenue_growth (PObj o) = Ok v → v = num 0.
Proof.
  unfold revenue_growth. simpl. case_bool_decide; [discriminate|by intros [= <-]].
Qed.

Lemma total_foldl (acc : Qc) (qs : list Qc) :
  total acc qs = foldl fadd acc (round64 <$> qs).
Proof.
  revert acc. induction qs as [|q qs IH]; intros acc; [done|].
  cbn [total fmap list_fmap foldl]. apply IH.
Qed.

(** What [np.mean] computes is the arithmetic mean. *)
Lemma mean_arithmetic (qs : list Qc) : mean qs = arithmetic_mean qs.
Proof. unfold mean, arithmetic_mean. by rewrite total_foldl. Qed.

Lemma revenue_growth_list (l : list (gmap string value)) (v : value) :
  revenue_growth (PList l) = Ok v → v = VNum (revenue_growth_5y_spec l).
Proof.
  unfold revenue_growth, revenue_growth_5y_spec. simpl.
  case_bool_decide as Hlen; case_decide; try lia; [|by intros [= <-]].
  rewrite mapM_get_rates. simpl.
  destruct (valid (rate <$> take 5 l)) as [|v0 vs] eqn:Hvalid.
  - intros [= <-].
    by rewrite <- (valid_rates_numbers (take 5 l) []) by (by rewrite Hvalid).
  - unfold np_mean. rewrite <- Hvalid.
    intros (m & (qs & Hqs & [= <-])%res_bind_Ok & [= <-])%res_bind_Ok.
    pose proof (valid_rates_numbers _ _ Hqs) as <-.
    rewrite Hvalid in Hqs. simpl in Hqs.
    apply res_bind_Ok in Hqs as (q & _ & (k & _ & [= <-])%res_bind_Ok).
    by rewrite mean_arithmetic.
Qed.

Lemma revenue_growth_Ok (data : gmap string pyval) (v : value) :
  revenue_growth (growth_or_empty data) = Ok v →
  v = VNum (revenue_growth_5y_spec (growth_entries data)).
Proof.
  destruct (growth_or_empty_cases data) as [-> | [(s & -> & ->) | (o & -> & ->)]].
  - apply revenue_growth_list.
  - apply revenue_growth_str.
  - apply revenue_growth_obj.
Qed.

Lemma growth_with_null_spec :
  revenue_growth_5y_spec Samples.growth_with_null = Qc_of_Z 10.
Proof. apply Qc_is_canon. reflexivity. Qed.

Lemma derive_growth_field (symbol : string) (data : gmap string pyval)
    (m : gmap string value) :
  derive symbol data = Ok m →
  m !! "revenue_growth_5y"
    = Some (VNum (revenue_growth_5y_spec (growth_entries data))).
Proof.
  intros (profile & income & ratios & quote & dy & rg & roe & debt
          & _ & _ & _ & _ & _ & Hrg & _ & _ & ->)%derive_Ok.
  apply revenue_growth_Ok in Hrg as ->. reflexivity.
Qed.

Lemma growth_short_spec (growth : list (gmap string value)) :
  (length growth < 5)%nat → revenue_growth_5y_spec growth = Qc_of_Z 0.
Proof. intros Hlen. unfold revenue_growth_5y_spec. by rewrite decide_True. Qed.

(** Where every entry of the window has the field, no default is used. *)
Lemma present_rates_nonnull (window : list (gmap string value)) :
  Forall (λ g, is_Some (g !! "revenueGrowth")) window →
  nonnull_rates window = present_rates window.
Proof.
  unfold nonnull_rates, present_rates, rate.
  induction 1 as [|g window [v Hv] _ IH]; [done|].
  cbn [omap list_omap]. by rewrite Hv, IH.
Qed.

(** The rounding of binary64 arithmetic shows in the result: the history
    [0.1, 0.2, 0.0, null, null] yields 10.000000000000002, the float next
    above 10, and so meets the growth rule of the score. *)
Lemma growth_rounding_shows :
  revenue_growth (PList Samples.growth_rounded)
  = Ok (VNum (Q2Qc (5629499534213121 # 562949953421312)))
  ∧ py_gt (VNum (Q2Qc (5629499534213121 # 562949953421312))) 10 = Ok true.
Proof.
  split; [|reflexivity].
  unfold revenue_growth. cbn -[round64 fmul mean].
  do 2 f_equal; by apply Qc_is_canon.
Qed.

(** C2, as stated, fails: a growth entry without a revenue-growth field is
    not left out of the mean, it counts as a growth of 0. The history
    [0.10, -, 0.10, 0.10, 0.10] yields 8.0, where the mean of the values
    it holds gives 10.0. *)
Lemma absent_growth_counts_as_zero :
  ∃ m, derive "AAA" Samples.data_growth_gap = Ok m
       ∧ m !! "revenue_growth_5y" = Some (num 8)
       ∧ revenue_growth_5y_claimed (growth_entries Samples.data_growth_gap)
         = Qc_of_Z 10
       ∧ m !! "revenue_growth_5y"
         ≠ Some (VNum (revenue_growth_5y_claimed
                         (growth_entries Samples.data_growth_gap))).
Proof.
  destruct (is_ok_inv (derive "AAA" Samples.data_growth_gap)) as [m E];
    [by vm_compute|].
  assert (m !! "revenue_growth_5y" = Some (num 8)) as Hcode.
  { rewrite (derive_growth_field _ _ _ E).
    unfold num. do 2 f_equal; by apply Qc_is_canon. }
  assert (revenue_growth_5y_claimed (growth_entries Samples.data_growth_gap)
          = Qc_of_Z 10) as Hclaimed by (by apply Qc_is_canon).
  exists m. split_and!; [done..|].
  rewrite Hcode, Hclaimed. intros [= H%Z2Qc_inj]; lia.
Qed.

(** C2, amended. The [revenue_growth_5y] of a derived record is 0 when the
    growth sequence has fewer than 5 entries, whatever they hold, and
    otherwise 100 times the arithmetic mean, in binary64 arithmetic, of the
    revenue-growth values of its first 5 entries, an explicit null being
    left out and an entry without the field counting as 0 (0 if all are
    null). Where each of the 5 entries has the field, this is the mean of
    the non-null values they hold. *)
Theorem revenue_growth_5y_mean (symbol : string) (data : gmap string pyval)
    (m : gmap string value) :
  derive symbol data = Ok m →
  m !! "revenue_growth_5y"
    = Some (VNum (revenue_growth_5y_spec (growth_entries data)))
  ∧ ((length (growth_entries data) < 5)%nat →
     m !! "revenue_growth_5y" = Some (num 0))
  ∧ (Forall (λ g, is_Some (g !! "revenueGrowth")) (take 5 (growth_entries data)) →
     m !! "revenue_growth_5y"
       = Some (VNum (revenue_growth_5y_claimed (growth_entries data)))).
Proof.
  intros Hd. rewrite (derive_growth_field _ _ _ Hd). split_and!.
  - done.
  - intros Hlen. by rewrite growth_short_spec.
  - intros Hall. unfold revenue_growth_5y_spec, revenue_growth_5y_claimed.
    by rewrite present_rates_nonnull.
Qed.

Lemma revenue_growth_5y_mean_witness :
  ∃ m, derive "AAA" Samples.data_growth_null = Ok m
       ∧ m !! "revenue_growth_5y" = Some (num 10)
       ∧ m !! "revenue_growth_5y"
         = Some (VNum (revenue_growth_5y_claimed
                         (growth_entries Samples.data_growth_null))).
Proof.
  destruct (is_ok_inv (derive "AAA" Samples.data_growth_null)) as [m E]; [by vm_compute|].
  exists m. split; [done|].
  destruct (revenue_growth_5y_mean _ _ _ E) as (Hspec & _ & Hclaimed).
  split.
  - rewrite Hspec. unfold num. do 2 f_equal; by apply Qc_is_canon.
  - apply Hclaimed. repeat constructor; by eexists.
Defined.

(** ** Insertion-ordered dictionaries *)

Section dict.
Context {V : Type}.
Implicit Types (d : list (string * V)) (k : string) (v : V).

Lemma dict_set_fresh k v d : k ∉ d.*1 → dict_set k v d = d ++ [(k, v)].
Proof.
  induction d as [|[k' v'] d IH]; simpl; [done|].
  rewrite not_elem_of_cons. intros [Hne Hnotin].
  case_decide; [done|]. by rewrite IH.
Qed.

Lemma elem_of_dict_set k v d k' v' :
  (k', v') ∈ dict_set k v d → (k' = k ∧ v' = v) ∨ (k', v') ∈ d.
Proof.
  induction d as [|[k0 v0] d IH]; simpl.
  - rewrite list_elem_of_singleton. intros [= -> ->]. by left.
  - case_decide; rewrite !elem_of_cons.
    + intros [[= -> ->] | Hin]; auto.
    + intros [Heq | Hin]; [auto|]. destruct (IH Hin); auto.
Qed.

Lemma dict_set_keys k v d :
  (dict_set k v d).*1 = if decide (k ∈ d.*1) then d.*1 else d.*1 ++ [k].
Proof.
  induction d as [|[k0 v0] d IH].
  - rewrite decide_False by apply not_elem_of_nil. done.
  - cbn [dict_set]. rewrite fmap_cons. cbn [fst].
    destruct (decide (k = k0)) as [->|Hne].
    + rewrite fmap_cons, decide_True by left. done.
    + rewrite fmap_cons, IH. cbn [fst].
      destruct (decide (k ∈ d.*1)) as [Hin|Hin].
      * rewrite decide_True by (by right). done.
      * rewrite decide_False; [done|]. rewrite elem_of_cons. tauto.
Qed.

Lemma dict_set_NoDup k v d : NoDup d.*1 → NoDup (dict_set k v d).*1.
Proof.
  intros Hnd. rewrite dict_set_keys. case_decide as Hin; [done|].
  apply NoDup_app. split; [done|]. split; [|apply NoDup_singleton].
  intros x Hx ->%list_elem_of_singleton. done.
Qed.

Lemma dict_alter_keys (f : V → V) k d : (dict_alter f k d).*1 = d.*1.
Proof.
  induction d as [|[k0 v0] d IH]; simpl; [done|].
  case_decide; simpl; [done|]. f_equal. apply IH.
Qed.

Lemma dict_alter_Forall (P : string * V → Prop) (f : V → V) k d :
  (∀ k' x, P (k', x) → P (k', f x)) →
  Forall P d → Forall P (dict_alter f k d).
Proof.
  intros Hf. induction 1 as [|[k0 v0] d HP Hd IH]; simpl; [constructor|].
  case_decide; constructor; auto.
Qed.

Lemma dict_alter_fresh (f : V → V) k d : k ∉ d.*1 → dict_alter f k d = d.
Proof.
  induction d as [|[k0 v0] d IH]; simpl; [done|].
  rewrite not_elem_of_cons. intros [Hne Hnotin].
  case_decide; [done|]. by rewrite IH.
Qed.

Lemma dict_alter_app_r (f : V → V) k v d1 d2 :
  k ∉ d1.*1 → dict_alter f k (d1 ++ (k, v) :: d2) = d1 ++ (k, f v) :: d2.
Proof.
  induction d1 as [|[k0 v0] d1 IH]; simpl.
  - intros _. by rewrite decide_True.
  - rewrite not_elem_of_cons. intros [Hne Hnotin].
    case_decide; [done|]. by rewrite IH.
Qed.

(** A dictionary has one value per key. *)
Lemma dict_lookup_unique k (a b : V) d :
  NoDup d.*1 → (k, a) ∈ d → (k, b) ∈ d → a = b.
Proof.
  induction d as [|[k0 v0] d IH]; simpl; [by intros _ ?%elem_of_nil|].
  rewrite NoDup_cons, !elem_of_cons. intros [Hnotin Hnd] [Ha|Ha] [Hb|Hb].
  - congruence.
  - injection Ha as -> ->. destruct Hnotin. apply list_elem_of_fmap.
    by exists (k0, b).
  - injection Hb as -> ->. destruct Hnotin. apply list_elem_of_fmap.
    by exists (k0, a).
  - by apply IH.
Qed.

End dict.

(** ** The loop of [_calculate_metrics] *)

Lemma metrics_step_skipped results symbol data :
  skipped symbol data → metrics_step results (symbol, data) = results.
Proof.
  unfold metrics_step. intros [Herr | [e He]].
  - by rewrite decide_True.
  - case_decide; [done|]. by rewrite He.
Qed.

(** Every stored record is the derivation of an entry without error. *)
Lemma metrics_loop_elem stocks_data acc symbol m :
  (symbol, m) ∈ foldl metrics_step acc stocks_data →
  (symbol, m) ∈ acc
  ∨ ∃ data, (symbol, data) ∈ stocks_data
            ∧ data !! "error" = None ∧ derive symbol data = Ok m.
Proof.
  revert acc. induction stocks_data as [|[s data] sd IH]; intros acc; simpl;
    [auto|].
  intros [Hacc | (data' & Hin & Herr & Hm)]%IH.
  - unfold metrics_step in Hacc. case_decide as Herr; [auto|].
    destruct (derive s data) as [m'|e] eqn:Hd; [|auto].
    apply elem_of_dict_set in Hacc as [[-> ->] | Hacc]; [|auto].
    right. exists data. split; [left|].
    split; [|done]. by destruct (data !! "error"); [destruct Herr; eauto|].
  - right. exists data'. split; [by right|done].
Qed.

Lemma calculate_metrics_elem stocks_data symbol m :
  (symbol, m) ∈ _calculate_metrics stocks_data →
  ∃ data, (symbol, data) ∈ stocks_data
          ∧ data !! "error" = None ∧ derive symbol data = Ok m.
Proof.
  intros [Hnil | H]%metrics_loop_elem; [by apply elem_of_nil in Hnil | done].
Qed.

Lemma metrics_loop_NoDup stocks_data acc :
  NoDup acc.*1 → NoDup (foldl metrics_step acc stocks_data).*1.
Proof.
  revert acc. induction stocks_data as [|[s data] sd IH]; intros acc Hnd;
    simpl; [done|].
  apply IH. unfold metrics_step. case_decide; [done|].
  destruct (derive s data); [by apply dict_set_NoDup | done].
Qed.

Lemma calculate_metrics_NoDup stocks_data :
  NoDup (_calculate_metrics stocks_data).*1.
Proof. apply metrics_loop_NoDup. constructor. Qed.

(** A skipped entry leaves no trace in the results. *)
Lemma calculate_metrics_skip before symbol data after :
  skipped symbol data →
  _calculate_metrics (before ++ (symbol, data) :: after)
  = _calculate_metrics (before ++ after).
Proof.
  intros Hskip. unfold _calculate_metrics.
  rewrite !foldl_app.
  change (foldl ?f ?a (?x :: ?l)) with (foldl f (f a x) l).
  by rewrite metrics_step_skipped.
Qed.

Lemma calculate_metrics_absent stocks_data symbol data :
  NoDup stocks_data.*1 → (symbol, data) ∈ stocks_data →
  skipped symbol data →
  symbol ∉ (_calculate_metrics stocks_data).*1.
Proof.
  intros Hnd Hin Hskip ([s m] & -> & Hm)%list_elem_of_fmap. simpl in *.
  apply calculate_metrics_elem in Hm as (data' & Hin' & Herr & Hd).
  assert (data' = data) as -> by eauto using dict_lookup_unique.
  destruct Hskip as [[x Hx] | [e He]]; congruence.
Qed.

(** ** The loop of [_calculate_scores] *)

Lemma scores_loop_keys items results scored :
  scores_loop items results = Ok scored → scored.*1 = results.*1.
Proof.
  revert results. induction items as [|[s m] items IH]; intros results; simpl.
  - by intros [= <-].
  - intros (sc & _ & Hloop)%res_bind_Ok.
    apply IH in Hloop. by rewrite dict_alter_keys in Hloop.
Qed.

Lemma scores_loop_Forall (P : gmap string value → Prop) items results scored :
  (∀ m s, P m → P (<["score" := num s]> m)) →
  scores_loop items results = Ok scored →
  Forall (λ row, P row.2) results → Forall (λ row, P row.2) scored.
Proof.
  intros HP. revert results.
  induction items as [|[s m] items IH]; intros results; simpl.
  - by intros [= <-].
  - intros (sc & _ & Hloop)%res_bind_Ok Hres.
    eapply IH; [done|]. apply dict_alter_Forall; [|done].
    intros k' x. simpl. apply HP.
Qed.

Lemma scores_loop_rows items done_ :
  NoDup (done_ ++ items).*1 →
  scores_loop items (done_ ++ items)
  = scored ← mapM score_row items; Ok (done_ ++ scored).
Proof.
  revert done_. induction items as [|[s m] items IH]; intros done_ Hnd.
  - simpl. by rewrite !app_nil_r.
  - cbn [scores_loop].
    change (mapM ?f (?x :: ?l)) with (y ← f x; k ← mapM f l; mret (y :: k)).
    assert (score_row (s, m)
            = (sc ← score m; Ok (s, <["score" := num sc]> m))) as -> by done.
    destruct (score m) as [sc|e]; rewrite ?res_bind_ok, ?res_bind_raise;
      [|done].
    rewrite dict_alter_app_r.
    2:{ rewrite fmap_app, fmap_cons in Hnd.
        apply NoDup_app in Hnd as (_ & Hdisj & _).
        intros Hin. apply (Hdisj _ Hin). left. }
    rewrite (cons_middle _ done_ items), app_assoc. rewrite IH.
    + destruct (mapM score_row items);
        rewrite ?res_bind_ok, ?res_bind_raise; [|done].
      by rewrite <- app_assoc.
    + rewrite <- app_assoc. simpl.
      by rewrite !fmap_app, !fmap_cons in *.
Qed.

(** The scored results are the derived rows, each with its own score. *)
Lemma calculate_scores_rows results :
  NoDup results.*1 → _calculate_scores results = mapM score_row results.
Proof.
  intros Hnd. unfold _calculate_scores.
  pose proof (scores_loop_rows results [] Hnd) as H. simpl in H. rewrite H.
  by destruct (mapM score_row results).
Qed.

(** ** Defaults of the derivation *)

Lemma object_field (data : gmap string pyval) (key field : string)
    (o : gmap string value) :
  default (PObj ∅) (data !! key) = PObj o →
  o !! field = object_of data key ≫= λ o, o !! field.
Proof.
  unfold object_of. destruct (data !! key) as [[]|]; simpl; try discriminate.
  - by intros [= ->].
  - by intros [= <-].
Qed.

Lemma latest_field (data : gmap string pyval) (key field : string)
    (o : gmap string value) :
  first_or_empty data key = Ok (PObj o) →
  o !! field = latest data key ≫= λ o, o !! field.
Proof.
  unfold first_or_empty, latest.
  destruct (data !! key) as [[|s|o'|[|o' l]]|]; simpl;
    try discriminate; try (by intros [= <-]).
  - destruct s; simpl; [by intros [= <-] | discriminate].
  - destruct (negb _); [discriminate | by intros [= <-]].
Qed.

Lemma mul100_zero : mul100 (num 0) = Ok (num 0).
Proof. unfold num, mul100. do 2 f_equal. by apply Qc_is_canon. Qed.

Lemma scores_keep_rows stocks_data scored :
  analyze stocks_data = Ok scored →
  scored.*1 = (_calculate_metrics stocks_data).*1
  ∧ (Forall (λ row, dom row.2 = metric_keys) (_calculate_metrics stocks_data) →
     Forall (λ row, dom row.2 = metric_keys) scored).
Proof.
  unfold analyze, _calculate_scores. intros H. split.
  - by eapply scores_loop_keys.
  - eapply (scores_loop_Forall (λ m, dom m = metric_keys)); [|done].
    intros m s Hm. rewrite dom_insert_L, Hm. unfold metric_keys. set_solver.
Qed.

Lemma derive_dom symbol data m : derive symbol data = Ok m → dom m = metric_keys.
Proof.
  intros (profile & income & ratios & quote & dy & rg & roe & debt
          & _ & _ & _ & _ & _ & _ & _ & _ & ->)%derive_Ok.
  rewrite !dom_insert_L, dom_singleton_L. unfold metric_keys. set_solver.
Qed.

Lemma calculate_metrics_dom stocks_data :
  Forall (λ row, dom row.2 = metric_keys) (_calculate_metrics stocks_data).
Proof.
  apply Forall_forall. intros [s m] (data & _ & _ & Hd)%calculate_metrics_elem.
  by eapply derive_dom.
Qed.

(** C9. Every record that reaches scoring has the twelve metric keys, before
    and after scoring; it is the derivation of an error-free entry of the
    batch, and each of its fields is the source field or, when the
    sub-record or the field is absent, its default: the symbol for the
    name, "N/A" for the sector, 0 for the numbers. *)
Theorem derived_records_total (stocks_data : list (string * gmap string pyval))
    (symbol : string) (m : gmap string value) :
  (symbol, m) ∈ _calculate_metrics stocks_data →
  dom m = metric_keys
  ∧ (∀ scored, analyze stocks_data = Ok scored →
       scored.*1 = (_calculate_metrics stocks_data).*1
       ∧ Forall (λ row, dom row.2 = metric_keys) scored)
  ∧ ∃ data, (symbol, data) ∈ stocks_data ∧ data !! "error" = None
      ∧ m !! "name"
          = Some (field_or (object_of data "company_profile") "companyName"
                           (VStr symbol))
      ∧ m !! "sector"
          = Some (field_or (object_of data "company_profile") "sector"
                           (VStr "N/A"))
      ∧ m !! "price" = Some (field_or (object_of data "quote") "price" (num 0))
      ∧ m !! "pe_ratio"
          = Some (field_or (latest data "ratios") "priceEarningsRatio" (num 0))
      ∧ m !! "ps_ratio"
          = Some (field_or (latest data "ratios") "priceToSalesRatio" (num 0))
      ∧ m !! "pb_ratio"
          = Some (field_or (latest data "ratios") "priceToBookRatio" (num 0))
      ∧ m !! "eps"
          = Some (field_or (latest data "income_statements") "eps" (num 0))
      ∧ Ok <$> m !! "dividend_yield"
          = Some (mul100 (field_or (latest data "ratios") "dividendYield" (num 0)))
      ∧ Ok <$> m !! "roe"
          = Some (mul100 (field_or (latest data "ratios") "returnOnEquity" (num 0)))
      ∧ Ok <$> m !! "debt_ratio"
          = Some (mul100 (field_or (latest data "ratios") "debtRatio" (num 0)))
      ∧ m !! "revenue_growth_5y"
          = Some (VNum (revenue_growth_5y_spec (growth_entries data)))
      ∧ m !! "score" = Some (num 0).
Proof.
  intros Hin. split; [|split].
  - pose proof (calculate_metrics_dom stocks_data) as Hall.
    rewrite Forall_forall in Hall. apply (Hall _ Hin).
  - intros scored [Hkeys Hdom]%scores_keep_rows. split; [done|].
    apply Hdom, calculate_metrics_dom.
  - apply calculate_metrics_elem in Hin as (data & Hin & Herr & Hd).
    exists data. split; [done|]. split; [done|].
    pose proof (derive_growth_field _ _ _ Hd) as Hgrowth.
    apply derive_Ok in Hd
      as (profile & income & ratios & quote & dy & rg & roe & debt
          & Hprofile & Hincome & Hratios & Hquote & Hdy & _ & Hroe & Hdebt & ->).
    unfold field_or.
    rewrite <- !(object_field _ _ _ _ Hprofile), <- (object_field _ _ _ _ Hquote),
      <- !(latest_field _ _ _ _ Hratios), <- (latest_field _ _ _ _ Hincome).
    rewrite Hdy, Hroe, Hdebt.
    split_and!; try reflexivity. exact Hgrowth.
Qed.

Lemma derived_records_total_witness :
  ∃ m, ("BBB", m) ∈ _calculate_metrics [("BBB", Samples.data_quote_only)]
       ∧ dom m = metric_keys
       ∧ m !! "name" = Some (VStr "BBB")
       ∧ m !! "sector" = Some (VStr "N/A")
       ∧ m !! "price" = Some (num 7)
       ∧ m !! "pe_ratio" = Some (num 0).
Proof.
  destruct (is_ok_inv (derive "BBB" Samples.data_quote_only)) as [m E]; [by vm_compute|].
  assert (("BBB", m) ∈ _calculate_metrics [("BBB", Samples.data_quote_only)])
    as Hin.
  { unfold _calculate_metrics, metrics_step. simpl. rewrite E. left. }
  exists m. split; [done|].
  destruct (derived_records_total _ _ _ Hin)
    as (Hdom & _ & data & Hdata & _ & Hname & Hsector & Hprice & Hpe & _).
  apply list_elem_of_singleton in Hdata as [= ->].
  by rewrite Hname, Hsector, Hprice, Hpe.
Defined.

(** ** Ranking *)

Lemma Sorted_prefix {A : Type} (R : relation A) (l1 l2 : list A) :
  Sorted R (l1 ++ l2) → Sorted R l1.
Proof.
  induction l1 as [|x l1 IH]; simpl; [constructor|].
  inversion 1 as [|? ? Hsorted Hhd]; subst.
  constructor; [by apply IH|].
  destruct l1; [constructor|]. inversion Hhd; subst. by constructor.
Qed.

Lemma df_head_take {A : Type} (n : Z) (rows : list A) :
  ∃ k : nat, df_head n rows = take k rows
    ∧ Z.of_nat (length (df_head n rows))
      = if decide (0 ≤ n) then Z.min n (Z.of_nat (length rows))
        else Z.max (Z.of_nat (length rows) + n) 0.
Proof.
  unfold df_head. case_bool_decide; case_decide; try lia;
    eexists; (split; [reflexivity|]); rewrite length_take; lia.
Qed.

Lemma df_head_zero {A : Type} (rows : list A) : df_head 0 rows = [].
Proof. done. Qed.

Lemma df_head_all {A : Type} (n : Z) (rows : list A) :
  Z.of_nat (length rows) ≤ n → df_head n rows = rows.
Proof.
  intros Hn. unfold df_head. rewrite bool_decide_true by lia.
  apply take_ge. lia.
Qed.

Lemma sort_values_length rows sorted :
  sort_values rows sorted → length sorted = length rows.
Proof. intros [Hperm _]. by rewrite Hperm. Qed.

#[global] Instance score_ge_total : Total score_ge.
Proof.
  intros a b. unfold score_ge.
  destruct (Qclt_le_dec (score_key a) (score_key b)) as [H|H]; [|by left].
  right. by apply Qclt_le_weak.
Qed.

(** The merge sort of stdpp is one way to sort by score. *)
Lemma sort_values_merge_spec rows : sort_values rows (sort_values_merge rows).
Proof.
  split.
  - symmetry. apply merge_sort_Permutation.
  - apply (Sorted_merge_sort score_ge).
Qed.

(** Ranking a non-empty frame with numeric scores has an outcome. *)
Lemma get_top_stocks_total results top_n :
  results ≠ [] → Forall (λ row, is_Some (score_cell row)) results →
  ∃ rows, get_top_stocks results top_n (Ok rows).
Proof.
  intros Hne Hscores. eexists. apply (top_rows _ _ (sort_values_merge results));
    [done..|apply sort_values_merge_spec].
Qed.

Lemma get_top_stocks_Ok results top_n rows :
  get_top_stocks results top_n (Ok rows) →
  results ≠ [] ∧ ∃ sorted, sort_values results sorted ∧ rows = df_head top_n sorted.
Proof. inversion 1; subst. eauto. Qed.

Lemma get_top_stocks_nonempty results top_n out :
  results ≠ [] → get_top_stocks results top_n out →
  ∃ sorted, sort_values results sorted ∧ out = Ok (df_head top_n sorted).
Proof. intros Hne. inversion 1; subst; [done|eauto]. Qed.

Lemma get_top_stocks_subseteq results top_n rows :
  get_top_stocks results top_n (Ok rows) → rows ⊆ results.
Proof.
  intros (_ & sorted & [Hperm _] & ->)%get_top_stocks_Ok x.
  destruct (df_head_take top_n sorted) as (k & -> & _).
  intros Hx. rewrite Hperm. eapply elem_of_sublist; [done|apply sublist_take].
Qed.

Lemma rows_three_sorted :
  sort_values Samples.rows_three
    [ Samples.row "A" 10; Samples.row "C" 5; Samples.row "B" 2 ].
Proof.
  split.
  - apply perm_skip, perm_swap.
  - repeat constructor; by vm_compute.
Qed.

Lemma top_n_rows_length results top_n out :
  results ≠ [] → get_top_stocks results top_n out →
  ∃ rows sorted, out = Ok rows ∧ sort_values results sorted
    ∧ rows = df_head top_n sorted
    ∧ Z.of_nat (length rows)
      = if decide (0 ≤ top_n) then Z.min top_n (Z.of_nat (length results))
        else Z.max (Z.of_nat (length results) + top_n) 0.
Proof.
  intros Hne (sorted & Hsort & ->)%get_top_stocks_nonempty; [|done].
  exists (df_head top_n sorted), sorted. split_and!; [done..|].
  destruct (df_head_take top_n sorted) as (k & _ & ->).
  by rewrite (sort_values_length _ _ Hsort).
Qed.

(** C4, as stated, fails: with [top_n = -1] the ranking of three symbols is
    not empty, it holds the two best ones. *)
Lemma negative_top_n_not_empty :
  get_top_stocks Samples.rows_three (-1)
    (Ok [ Samples.row "A" 10; Samples.row "C" 5 ])
  ∧ ∀ out, get_top_stocks Samples.rows_three (-1) out →
      ∃ rows, out = Ok rows ∧ length rows = 2%nat.
Proof.
  split.
  - change (get_top_stocks Samples.rows_three (-1)
              (Ok (df_head (-1)
                 [ Samples.row "A" 10; Samples.row "C" 5; Samples.row "B" 2 ]))).
    apply top_rows; [done| |apply rows_three_sorted].
    repeat constructor; by eexists.
  - intros out (rows & sorted & -> & _ & _ & Hlen)%top_n_rows_length; [|done].
    exists rows. split; [done|]. simpl in Hlen. lia.
Qed.

(** C4, amended. On a non-empty collection of [count] scored symbols the
    ranking is the first rows of the sorted collection: [min(n, count)] of
    them when [n ≥ 0], hence none when [n = 0] and all of them, in sorted
    order, when [n ≥ count]; and for a negative [n] all but the last [-n],
    that is [max(count + n, 0)] rows. *)
Theorem top_n_length (results : list (string * gmap string value)) (top_n : Z)
    (out : res (list (string * gmap string value))) :
  results ≠ [] → get_top_stocks results top_n out →
  ∃ rows sorted, out = Ok rows ∧ sort_values results sorted
    ∧ rows = df_head top_n sorted
    ∧ Z.of_nat (length rows)
      = (if decide (0 ≤ top_n) then Z.min top_n (Z.of_nat (length results))
         else Z.max (Z.of_nat (length results) + top_n) 0)
    ∧ (top_n = 0 → rows = [])
    ∧ (Z.of_nat (length results) ≤ top_n → rows = sorted)
    ∧ (top_n < 0 →
       rows = take (length results - Z.to_nat (- top_n))%nat sorted).
Proof.
  intros Hne Hout.
  destruct (top_n_rows_length _ _ _ Hne Hout)
    as (rows & sorted & -> & Hsort & -> & Hlen).
  exists (df_head top_n sorted), sorted. split_and!; try done.
  - by intros ->.
  - intros Hall. apply df_head_all. by rewrite (sort_values_length _ _ Hsort).
  - intros Hneg. unfold df_head. rewrite bool_decide_false by lia.
    by rewrite (sort_values_length _ _ Hsort).
Qed.

Lemma top_n_length_witness :
  ∃ rows, length rows = 2%nat
          ∧ get_top_stocks Samples.rows_three (-1) (Ok rows).
Proof.
  assert (get_top_stocks Samples.rows_three (-1)
            (Ok (df_head (-1)
               [ Samples.row "A" 10; Samples.row "C" 5; Samples.row "B" 2 ])))
    as Hout.
  { apply top_rows; [done| |apply rows_three_sorted].
    repeat constructor; by eexists. }
  destruct (top_n_length Samples.rows_three (-1) _ ltac:(done) Hout)
    as (rows & sorted & [= <-] & _ & _ & Hlen & _).
  eexists. split; [|exact Hout]. reflexivity.
Defined.

(** ** Failed fetches *)

Lemma calculate_metrics_all_failed stocks_data :
  Forall (λ item, is_Some (item.2 !! "error")) stocks_data →
  _calculate_metrics stocks_data = [].
Proof.
  unfold _calculate_metrics. induction 1 as [|[s data] sd Herr _ IH]; [done|].
  simpl in *. by rewrite decide_True.
Qed.

(** A failed symbol is dropped and leaves the rest of the batch as it is. *)
Lemma failed_symbol_dropped before symbol data after :
  is_Some (data !! "error") →
  analyze (before ++ (symbol, data) :: after) = analyze (before ++ after)
  ∧ ∀ top_n out,
      analyze_stocks (before ++ (symbol, data) :: after) top_n out
      ↔ analyze_stocks (before ++ after) top_n out.
Proof.
  intros Herr.
  assert (analyze (before ++ (symbol, data) :: after) = analyze (before ++ after))
    as Heq.
  { unfold analyze. rewrite calculate_metrics_skip; [done|by left]. }
  split; [done|]. intros top_n out. unfold analyze_stocks. by rewrite Heq.
Qed.

Lemma failed_symbol_absent stocks_data symbol data scored top_n rows :
  NoDup stocks_data.*1 → (symbol, data) ∈ stocks_data →
  skipped symbol data →
  analyze stocks_data = Ok scored →
  (symbol ∉ (_calculate_metrics stocks_data).*1)
  ∧ (symbol ∉ scored.*1)
  ∧ (get_top_stocks scored top_n (Ok rows) → symbol ∉ rows.*1).
Proof.
  intros Hnd Hin Hskip Hscored.
  pose proof (calculate_metrics_absent _ _ _ Hnd Hin Hskip) as Habs.
  apply scores_keep_rows in Hscored as [Hkeys _].
  split; [done|]. split; [by rewrite Hkeys|].
  intros Hsub%get_top_stocks_subseteq Hrow. rewrite <- Hkeys in Habs.
  apply Habs. apply list_elem_of_fmap in Hrow as (r & -> & Hr).
  apply list_elem_of_fmap. exists r. split; [done|]. by apply Hsub.
Qed.

(** C7. When every symbol of the batch failed, no ranking comes out:
    [analyze] returns the empty dictionary, the data frame built from it has
    no ['score'] column, and [get_top_stocks] raises [KeyError] instead of
    returning an empty sequence. *)
Theorem all_failed_batch_raises :
  analyze Samples.batch_all_failed = Ok []
  ∧ (∀ top_n, analyze_stocks Samples.batch_all_failed top_n
                (Raise (PyExc KeyError "'score'")))
  ∧ (∀ top_n rows, ¬ analyze_stocks Samples.batch_all_failed top_n (Ok rows)).
Proof.
  split; [reflexivity|]. split.
  - intros top_n. by apply top_no_column.
  - intros top_n rows H. unfold analyze_stocks in H. simpl in H.
    by inversion H.
Qed.

(** ** Null ratio fields *)

Lemma first_or_empty_delete (data : gmap string pyval) (key : string) :
  key ≠ "ratios" →
  first_or_empty (delete "ratios" data) key = first_or_empty data key.
Proof. intros Hne. unfold first_or_empty. by rewrite lookup_delete_ne. Qed.

Lemma first_or_empty_absent (data : gmap string pyval) (key : string) :
  data !! key = None → first_or_empty data key = Ok (PObj ∅).
Proof. intros Hnone. unfold first_or_empty. by rewrite Hnone. Qed.

Lemma first_or_empty_latest (data : gmap string pyval) (key : string)
    (o : gmap string value) (rest : list (gmap string value)) :
  data !! key = Some (PList (o :: rest)) →
  first_or_empty data key = Ok (PObj o).
Proof. intros Hsome. unfold first_or_empty. by rewrite Hsome. Qed.

(** With a null in one of the three percentage fields the derivation
    raises. *)
Lemma derive_null_ratio_raises symbol data ratios0 rest field :
  data !! "ratios" = Some (PList (ratios0 :: rest)) →
  field ∈ ["dividendYield"; "returnOnEquity"; "debtRatio"] →
  ratios0 !! field = Some VNone →
  ∃ e, derive symbol data = Raise e.
Proof.
  intros Hratios Hfield Hnull.
  destruct (derive symbol data) as [m|e] eqn:Hd; [|by eexists].
  apply derive_Ok in Hd as (profile & income & ratios & quote & dy & rg & roe
    & debt & _ & _ & Hr & _ & Hdy & _ & Hroe & Hdebt & _).
  rewrite (first_or_empty_latest _ _ _ _ Hratios) in Hr. injection Hr as <-.
  rewrite !elem_of_cons in Hfield.
  destruct Hfield as [-> | [-> | [-> | []%elem_of_nil]]];
    [rewrite Hnull in Hdy | rewrite Hnull in Hroe | rewrite Hnull in Hdebt];
    discriminate.
Qed.

(** When the record is derivable without its ratios, it is the
    multiplication by 100 that raises. *)
Lemma derive_null_ratio_error symbol data ratios0 rest field m :
  data !! "ratios" = Some (PList (ratios0 :: rest)) →
  field ∈ ["dividendYield"; "returnOnEquity"; "debtRatio"] →
  ratios0 !! field = Some VNone →
  derive symbol (delete "ratios" data) = Ok m →
  derive symbol data = Raise mul_none_error.
Proof.
  intros Hratios Hfield Hnull. unfold derive, growth_or_empty.
  rewrite (first_or_empty_delete data "income_statements"),
    (first_or_empty_delete data "balance_sheets"),
    (first_or_empty_delete data "key_metrics") by done.
  rewrite (first_or_empty_absent (delete "ratios" data) "ratios")
    by apply lookup_delete_eq.
  rewrite (first_or_empty_latest _ _ _ _ Hratios).
  rewrite !lookup_delete_ne by done.
  destruct (first_or_empty data "income_statements") as [income|];
    rewrite ?res_bind_ok, ?res_bind_raise; [|discriminate].
  destruct (first_or_empty data "balance_sheets") as [balance|];
    rewrite ?res_bind_ok, ?res_bind_raise; [|discriminate].
  destruct (first_or_empty data "key_metrics") as [km|];
    rewrite ?res_bind_ok, ?res_bind_raise; [|discriminate].
  destruct (py_get (default (PObj ∅) (data !! "quote")) "price" (num 0));
    rewrite ?res_bind_ok, ?res_bind_raise; [|discriminate].
  rewrite !py_get_obj, !res_bind_ok, !lookup_empty. cbn [default].
  rewrite !mul100_zero, !res_bind_ok.
  rewrite !elem_of_cons in Hfield.
  destruct (ratios0 !! "dividendYield") as [[|q1|s1]|] eqn:Hdy;
    cbn [default mul100]; rewrite ?res_bind_ok, ?res_bind_raise; [done|..];
    (destruct (py_get income "eps" (num 0));
       rewrite ?res_bind_ok, ?res_bind_raise; [|discriminate]);
    (destruct (revenue_growth _);
       rewrite ?res_bind_ok, ?res_bind_raise; [|discriminate]);
    rewrite ?mul100_zero, ?res_bind_ok;
    (destruct (ratios0 !! "returnOnEquity") as [[|q2|s2]|] eqn:Hroe;
       cbn [default mul100]; rewrite ?res_bind_ok, ?res_bind_raise; [done|..]);
    rewrite ?mul100_zero, ?res_bind_ok;
    (destruct (ratios0 !! "debtRatio") as [[|q3|s3]|] eqn:Hdebt;
       cbn [default mul100]; rewrite ?res_bind_ok, ?res_bind_raise; [done|..]);
    exfalso;
    destruct Hfield as [-> | [-> | [-> | []%elem_of_nil]]]; congruence.
Qed.

(** Without a ratios sub-record the six ratio fields are 0. *)
Lemma derive_without_ratios symbol data m :
  data !! "ratios" = None → derive symbol data = Ok m →
  Forall (λ key, m !! key = Some (num 0))
    ["pe_ratio"; "ps_ratio"; "pb_ratio"; "dividend_yield"; "roe"; "debt_ratio"].
Proof.
  intros Hnone (profile & income & ratios & quote & dy & rg & roe & debt
    & _ & _ & Hr & _ & Hdy & _ & Hroe & Hdebt & ->)%derive_Ok.
  rewrite (first_or_empty_absent _ _ Hnone) in Hr. injection Hr as <-.
  rewrite lookup_empty in Hdy, Hroe, Hdebt. cbn [default] in *.
  rewrite mul100_zero in Hdy, Hroe, Hdebt.
  injection Hdy as <-. injection Hroe as <-. injection Hdebt as <-.
  repeat constructor.
Qed.

(** C10. When the latest ratios row holds an explicit null in
    [dividendYield], [returnOnEquity] or [debtRatio], the multiplication by
    100 raises [TypeError], the derivation of the symbol raises (with that
    very exception when the record is derivable without its ratios), and
    the symbol is skipped: the results are those of the batch without it,
    and the symbol is absent from the derived, the scored and the ranked
    rows. A record with no ratios sub-record at all derives instead, with 0
    in the six ratio fields. *)
Theorem null_ratio_field_skips (before after : list (string * gmap string pyval))
    (symbol : string) (data : gmap string pyval)
    (ratios0 : gmap string value) (rest : list (gmap string value))
    (field : string) :
  data !! "ratios" = Some (PList (ratios0 :: rest)) →
  field ∈ ["dividendYield"; "returnOnEquity"; "debtRatio"] →
  ratios0 !! field = Some VNone →
  let batch := before ++ (symbol, data) :: after in
  py_get (PObj ratios0) field (num 0) ≫= mul100 = Raise mul_none_error
  ∧ (∃ e, derive symbol data = Raise e)
  ∧ (∀ m, derive symbol (delete "ratios" data) = Ok m →
       derive symbol data = Raise mul_none_error)
  ∧ _calculate_metrics batch = _calculate_metrics (before ++ after)
  ∧ analyze batch = analyze (before ++ after)
  ∧ (NoDup batch.*1 → ∀ scored top_n rows, analyze batch = Ok scored →
       (symbol ∉ (_calculate_metrics batch).*1)
       ∧ (symbol ∉ scored.*1)
       ∧ (get_top_stocks scored top_n (Ok rows) → symbol ∉ rows.*1))
  ∧ (∀ data' m', data' !! "ratios" = None → derive symbol data' = Ok m' →
       Forall (λ key, m' !! key = Some (num 0))
         ["pe_ratio"; "ps_ratio"; "pb_ratio"; "dividend_yield"; "roe";
          "debt_ratio"]).
Proof.
  intros Hratios Hfield Hnull batch.
  pose proof (derive_null_ratio_raises symbol _ _ _ _ Hratios Hfield Hnull)
    as Hraise.
  assert (skipped symbol data) as Hskip by (by right).
  split_and!.
  - rewrite py_get_obj, Hnull. done.
  - done.
  - intros m. by eapply derive_null_ratio_error.
  - by apply calculate_metrics_skip.
  - unfold analyze, batch. by rewrite calculate_metrics_skip.
  - intros Hnd scored top_n rows Hscored.
    eapply failed_symbol_absent; [done| |done..].
    apply elem_of_app. right. left.
  - intros data' m'. apply derive_without_ratios.
Qed.

Lemma null_ratio_field_skips_witness :
  derive "DDD" Samples.data_null_dividend = Raise mul_none_error
  ∧ _calculate_metrics [ ("BBB", Samples.data_quote_only);
                         ("DDD", Samples.data_null_dividend) ]
    = _calculate_metrics [ ("BBB", Samples.data_quote_only) ].
Proof.
  destruct (null_ratio_field_skips [ ("BBB", Samples.data_quote_only) ] []
              "DDD" Samples.data_null_dividend
              {[ "priceEarningsRatio" := num 12; "dividendYield" := VNone ]}
              [] "dividendYield")
    as (_ & _ & Herror & Hskip & _); [reflexivity| |reflexivity|].
  { left. }
  split; [|exact Hskip].
  destruct (is_ok_inv (derive "DDD" (delete "ratios" Samples.data_null_dividend))) as [m E]; [by vm_compute|].
  by apply (Herror m).
Defined.

(** ** Requests and retries *)

Section fetcher_facts.
Variable net : nat → string → gmap string value → outcome.
Variable self : FinancialDataFetcher.

Lemma world_eta (w : world) : World (sent w + 0) (trace w ++ []) = w.
Proof. destruct w. simpl. by rewrite Nat.add_0_r, app_nil_r. Qed.

Lemma Qc_of_Z_negative (d : Z) : (Qc_of_Z d < Qc_of_Z 0)%Qc ↔ d < 0.
Proof. symmetry. apply Z2Qc_inj_lt. Qed.

(** The lengths of whole seconds [time.sleep] refuses, and with what. *)
Lemma sleep_error_seconds (d : Z) :
  sleep_error (Qc_of_Z d)
  = if decide (d < - sleep_max ∨ sleep_max < d)
    then Some (PyExc OverflowError
                 "timestamp too large to convert to C _PyTime_t")
    else if decide (d < 0)
    then Some (PyExc ValueError "sleep length must be non-negative")
    else None.
Proof.
  unfold sleep_error.
  repeat case_decide; try done; rewrite <- ?Z2Qc_inj_lt in *; tauto.
Qed.

(** A sleep of a length [time.sleep] accepts returns. *)
Lemma sleep_returns (seconds : Qc) (w : world) :
  sleep_error seconds = None →
  sleep seconds w = (Ok (), World (sent w) (trace w ++ [EvSleep seconds])).
Proof. intros Hnone. unfold sleep. by rewrite Hnone. Qed.

Lemma sleep_raises (seconds : Qc) (w : world) (e : exn) :
  sleep_error seconds = Some e → sleep seconds w = (Raise e, w).
Proof. intros Hsome. unfold sleep. by rewrite Hsome. Qed.

Lemma sleep_seconds_accepted (d : Z) :
  0 ≤ d ≤ sleep_max → sleep_error (Qc_of_Z d) = None.
Proof.
  intros Hd. rewrite sleep_error_seconds.
  rewrite decide_False by lia. by rewrite decide_False by lia.
Qed.

(** The pause between two symbols of a batch always returns. *)
Lemma sleep_pacing (w : world) :
  sleep (Q2Qc 0.5) w
  = (Ok (), World (sent w) (trace w ++ [EvSleep (Q2Qc 0.5)])).
Proof. by apply sleep_returns. Qed.

Lemma request_loop_step_fail url params attempt rest w msg :
  net (sent w) url params = RequestException msg →
  attempt < max_retries self - 1 →
  0 ≤ retry_delay self ≤ sleep_max →
  request_loop net self url params (attempt :: rest) w
  = request_loop net self url params rest
      (World (S (sent w))
         (trace w ++ [EvGet url params; EvSleep (Qc_of_Z (retry_delay self))])).
Proof.
  intros Hnet Hlt Hdelay. cbn [request_loop]. unfold mbind, M_bind, http_get.
  rewrite Hnet, bool_decide_true by done.
  rewrite sleep_returns by (by apply sleep_seconds_accepted). simpl.
  by rewrite <- app_assoc.
Qed.

(** A failed attempt that is not the last one, with a delay [time.sleep]
    refuses: the sleep raises and the request ends there. *)
Lemma request_loop_step_refused url params attempt rest w msg e :
  net (sent w) url params = RequestException msg →
  attempt < max_retries self - 1 →
  sleep_error (Qc_of_Z (retry_delay self)) = Some e →
  request_loop net self url params (attempt :: rest) w
  = (Raise e, World (S (sent w)) (trace w ++ [EvGet url params])).
Proof.
  intros Hnet Hlt Hdelay. cbn [request_loop]. unfold mbind, M_bind, http_get.
  rewrite Hnet, bool_decide_true by done.
  by rewrite (sleep_raises _ _ e).
Qed.

Lemma request_loop_step_last url params attempt rest w msg :
  net (sent w) url params = RequestException msg →
  ¬ attempt < max_retries self - 1 →
  request_loop net self url params (attempt :: rest) w
  = (Raise (terminal_error msg),
     World (S (sent w)) (trace w ++ [EvGet url params])).
Proof.
  intros Hnet Hlt. cbn [request_loop]. unfold mbind, M_bind, http_get.
  by rewrite Hnet, bool_decide_false by done.
Qed.

Lemma request_loop_step_ok url params attempt rest w body :
  net (sent w) url params = Response body →
  request_loop net self url params (attempt :: rest) w
  = (Ok body, World (S (sent w)) (trace w ++ [EvGet url params])).
Proof.
  intros Hnet. cbn [request_loop]. unfold mbind, M_bind, http_get.
  by rewrite Hnet.
Qed.

(** After [k] failed attempts that were not the last one, the loop is at
    attempt [a + k], [k] requests and [k] sleeps later. *)
Lemma request_loop_failures url params (k a : nat) (w : world) :
  (a + k < Z.to_nat (max_retries self))%nat →
  ((0 < k)%nat → 0 ≤ retry_delay self ≤ sleep_max) →
  (∀ i, (i < k)%nat → ∃ msg, net (sent w + i) url params = RequestException msg) →
  request_loop net self url params
    (Z.of_nat <$> seq a (Z.to_nat (max_retries self) - a)) w
  = request_loop net self url params
      (Z.of_nat <$> seq (a + k) (Z.to_nat (max_retries self) - (a + k)))
      (World (sent w + k)
         (trace w ++ failed_attempts url params (retry_delay self) k)).
Proof.
  revert a w. induction k as [|k IH]; intros a w Hlt Hdelay Hfail.
  - by rewrite Nat.add_0_r, world_eta.
  - destruct (Hfail 0%nat) as [msg Hmsg]; [lia|]. rewrite Nat.add_0_r in Hmsg.
    replace (Z.to_nat (max_retries self) - a)%nat
      with (S (Z.to_nat (max_retries self) - S a)) by lia.
    cbn [seq fmap list_fmap].
    rewrite (request_loop_step_fail _ _ _ _ _ msg)
      by (done || lia || (apply Hdelay; lia)).
    rewrite (IH (S a)); [|simpl; lia|intros _; apply Hdelay; lia|].
    + simpl. rewrite <- app_assoc. do 3 f_equal; [f_equal; lia..|f_equal; lia].
    + intros i Hi. simpl. destruct (Hfail (S i)) as [msg' Hmsg']; [lia|].
      exists msg'. rewrite <- Hmsg'. f_equal. lia.
Qed.

(** The loop after [k] failed attempts, when attempt [k] is still to make. *)
Lemma make_api_request_failures endpoint params (k : nat) (w : world) :
  let url := base_url self +:+ "/" +:+ endpoint in
  let params' := <["apikey" := VStr (api_key self)]> params in
  (k < Z.to_nat (max_retries self))%nat →
  ((0 < k)%nat → 0 ≤ retry_delay self ≤ sleep_max) →
  (∀ i, (i < k)%nat → ∃ msg, net (sent w + i) url params' = RequestException msg) →
  _make_api_request net self endpoint params w
  = request_loop net self url params'
      (Z.of_nat k
         :: (Z.of_nat <$> seq (S k) (Z.to_nat (max_retries self) - S k)))
      (World (sent w + k)
         (trace w ++ failed_attempts url params' (retry_delay self) k)).
Proof.
  intros url params' Hk Hdelay Hfail. unfold _make_api_request, range.
  fold url. fold params'.
  rewrite <- (Nat.sub_0_r (Z.to_nat (max_retries self))) at 1.
  rewrite (request_loop_failures url params' k 0) by done. simpl.
  replace (Z.to_nat (max_retries self) - k)%nat
    with (S (Z.to_nat (max_retries self) - S k)) by lia.
  done.
Qed.

(** C5. Attempts are made one after the other, at most [max_retries] of
    them, each failed one but the last followed by a sleep of
    [retry_delay] (a delay [time.sleep] accepts: not negative, and at most
    9223372036 seconds). A response at attempt [k] is returned at once,
    with no further request or sleep; and when attempt [k] is the last of
    the [max_retries] attempts and fails too, an [Exception] is raised
    whose message is ["API-Anfrage fehlgeschlagen: "] followed by the
    message of that last failure. *)
Theorem retry_until_response_or_error (endpoint : string)
    (params : gmap string value) (w : world) (k : nat) (msgs : nat → string) :
  let url := base_url self +:+ "/" +:+ endpoint in
  let params' := <["apikey" := VStr (api_key self)]> params in
  let after_k :=
    World (sent w + k + 1)
      (trace w ++ failed_attempts url params' (retry_delay self) k
               ++ [EvGet url params']) in
  (k < Z.to_nat (max_retries self))%nat →
  ((0 < k)%nat → 0 ≤ retry_delay self ≤ 9223372036) →
  (∀ i, (i < k)%nat → net (sent w + i) url params' = RequestException (msgs i)) →
  (∀ body, net (sent w + k) url params' = Response body →
     _make_api_request net self endpoint params w = (Ok body, after_k))
  ∧ (S k = Z.to_nat (max_retries self) →
     net (sent w + k) url params' = RequestException (msgs k) →
     _make_api_request net self endpoint params w
     = (Raise (PyExc Exception ("API-Anfrage fehlgeschlagen: " +:+ msgs k)),
        after_k)).
Proof.
  intros url params' after_k Hk Hdelay Hfail.
  assert (_make_api_request net self endpoint params w
          = request_loop net self url params'
              (Z.of_nat k
                 :: (Z.of_nat <$> seq (S k) (Z.to_nat (max_retries self) - S k)))
              (World (sent w + k)
                 (trace w ++ failed_attempts url params' (retry_delay self) k)))
    as ->.
  { apply make_api_request_failures; [done..|]. intros i Hi. eauto. }
  unfold after_k. split.
  - intros body Hnet. rewrite (request_loop_step_ok _ _ _ _ _ body) by done.
    simpl. by rewrite Nat.add_1_r, <- app_assoc.
  - intros Hlast Hnet.
    rewrite (request_loop_step_last _ _ _ _ _ (msgs k)) by (done || lia).
    simpl. by rewrite Nat.add_1_r, <- app_assoc.
Qed.

End fetcher_facts.

Lemma retry_until_response_or_error_witness :
  _make_api_request (λ _ _ _, RequestException "503") (default_fetcher "key")
    "quote/X" ∅ (World 0 [])
  = (Raise (PyExc Exception "API-Anfrage fehlgeschlagen: 503"),
     World 3
       (let url := "https://financialmodelingprep.com/api/v3/quote/X" in
        let params := {[ "apikey" := VStr "key" ]} in
        [ EvGet url params; EvSleep (Qc_of_Z 2);
          EvGet url params; EvSleep (Qc_of_Z 2);
          EvGet url params ]))
  ∧ _make_api_request net_third_time (default_fetcher "key")
      "quote/X" ∅ (World 0 [])
    = (Ok (PList []),
       World 3
         (let url := "https://financialmodelingprep.com/api/v3/quote/X" in
          let params := {[ "apikey" := VStr "key" ]} in
          [ EvGet url params; EvSleep (Qc_of_Z 2);
            EvGet url params; EvSleep (Qc_of_Z 2);
            EvGet url params ])).
Proof.
  split.
  - apply (retry_until_response_or_error (λ _ _ _, RequestException "503")
             (default_fetcher "key") "quote/X" ∅ (World 0 []) 2 (λ _, "503"));
      [simpl; lia | simpl; lia | reflexivity..].
  - apply (retry_until_response_or_error net_third_time
             (default_fetcher "key") "quote/X" ∅ (World 0 []) 2 (λ _, "503"));
      [simpl; lia | simpl; lia | | reflexivity].
    intros i Hi. unfold net_third_time. simpl. by rewrite bool_decide_true.
Defined.

(** ** Fetching a symbol and a batch *)

Section gateway_facts.
Variable net : nat → string → gmap string value → outcome.
Variable self : FinancialDataFetcher.

Ltac find_raise :=
  repeat first
    [ eapply raises_now; eassumption
    | eapply raises_later; [eassumption|] ].

(** A sub-request that raises ends the fetch with the error record, in the
    state the raise left. *)
Lemma get_stock_data_error symbol w e w' :
  runs_until_error (sub_requests net self symbol) w e w' →
  get_stock_data net self symbol w = (Ok (error_record symbol e), w').
Proof.
  unfold sub_requests, get_stock_data, try_except, mbind, M_bind. intros H.
  repeat (inversion H as [? ? ? ? ? Hg | ? ? ? ? ? ? ? Hg H']; subst; clear H;
          rewrite Hg; clear Hg; [reflexivity | rename H' into H]).
  inversion H.
Qed.

(** A fetch never raises: it returns the error record of the first
    sub-request that raised, or the record of the seven responses. *)
Lemma get_stock_data_cases symbol w :
  ∃ r w', get_stock_data net self symbol w = (Ok r, w')
    ∧ r !! "symbol" = Some (PStr symbol)
    ∧ ((∃ e, r = error_record symbol e
             ∧ runs_until_error (sub_requests net self symbol) w e w')
       ∨ (dom r = record_keys ∧ r !! "error" = None)).
Proof.
  unfold sub_requests, get_stock_data, try_except, mbind, M_bind.
  destruct (get_company_profile net self symbol w) as [[v1|e1] w1] eqn:H1;
  [destruct (get_income_statement net self symbol w1) as [[v2|e2] w2] eqn:H2;
  [destruct (get_balance_sheet net self symbol w2) as [[v3|e3] w3] eqn:H3;
  [destruct (get_key_metrics net self symbol w3) as [[v4|e4] w4] eqn:H4;
  [destruct (get_ratios net self symbol w4) as [[v5|e5] w5] eqn:H5;
  [destruct (get_growth net self symbol w5) as [[v6|e6] w6] eqn:H6;
  [destruct (get_stock_quote net self symbol w6) as [[v7|e7] w7] eqn:H7;
  [|]|]|]|]|]|]|].
  1:{ eexists _, _. split; [reflexivity|]. split; [reflexivity|].
      right. split; [|reflexivity].
      rewrite !dom_insert_L, dom_singleton_L. unfold record_keys. set_solver. }
  all: eexists _, _; (split; [reflexivity|]); (split; [reflexivity|]);
    left; eexists; (split; [reflexivity|]); find_raise.
Qed.

Lemma get_stock_data_total symbol w :
  ∃ r w', get_stock_data net self symbol w = (Ok r, w').
Proof. destruct (get_stock_data_cases symbol w) as (r & w' & H & _). eauto. Qed.

(** The batch loop never raises; its dictionary holds the symbols fetched,
    each with what its own fetch returned. *)
Lemma stocks_loop_spec symbols acc w :
  NoDup acc.*1 →
  Forall (λ item, fetch_outcome net self item.1 item.2) acc →
  ∃ d w', stocks_loop net self symbols acc w = (Ok d, w')
    ∧ NoDup d.*1
    ∧ (∀ s, s ∈ d.*1 ↔ s ∈ acc.*1 ∨ s ∈ symbols)
    ∧ Forall (λ item, fetch_outcome net self item.1 item.2) d.
Proof.
  revert acc w. induction symbols as [|symbol rest IH]; intros acc w Hnd Hacc.
  - exists acc, w. split_and!; [done..| |done].
    intros s. rewrite elem_of_nil. tauto.
  - cbn [stocks_loop]. unfold mbind, M_bind.
    destruct (get_stock_data_total symbol w) as (r & w1 & Hr). rewrite Hr.
    rewrite sleep_pacing.
    destruct (IH (dict_set symbol r acc)
                (World (sent w1) (trace w1 ++ [EvSleep (Q2Qc 0.5)])))
      as (d & w' & Hloop & Hnd' & Hkeys & Hall).
    + by apply dict_set_NoDup.
    + apply Forall_forall. intros [s r'] [[-> ->] | Hin]%elem_of_dict_set.
      * by exists w, w1.
      * rewrite Forall_forall in Hacc. by apply (Hacc (s, r')).
    + exists d, w'. split_and!; [done..| |done].
      intros s. rewrite Hkeys, dict_set_keys, elem_of_cons.
      case_decide as Hin; [|rewrite elem_of_app, list_elem_of_singleton].
      * split; [tauto|]. intros [?|[->|?]]; auto.
      * tauto.
Qed.

Lemma fetch_outcome_shape symbol r :
  fetch_outcome net self symbol r →
  r !! "symbol" = Some (PStr symbol)
  ∧ ((∃ e, r = error_record symbol e) ∨ (dom r = record_keys ∧ r !! "error" = None)).
Proof.
  intros (w & w' & Hr).
  destruct (get_stock_data_cases symbol w) as (r0 & w0 & Hr0 & Hsym & Hshape).
  rewrite Hr in Hr0. injection Hr0 as <- <-. split; [done|].
  destruct Hshape as [(e & -> & _) | ?]; eauto.
Qed.

(** C6. When a sub-request of a symbol raises a terminal error, the fetch
    returns the record with exactly the keys [symbol] and [error], in the
    state the raise left: no later sub-request is made. A batch never
    raises: its result has one entry per input symbol, each being what the
    fetch of that symbol returned, an error record or a full record. *)
Theorem symbol_failure_is_contained (symbol : string) (w w' : world) (e : exn) :
  runs_until_error (sub_requests net self symbol) w e w' →
  get_stock_data net self symbol w = (Ok (error_record symbol e), w')
  ∧ dom (error_record symbol e) = {[ "symbol"; "error" ]}
  ∧ ∀ symbols w0, ∃ d w1,
      get_stocks_data net self symbols w0 = (Ok d, w1)
      ∧ NoDup d.*1
      ∧ (∀ s, s ∈ d.*1 ↔ s ∈ symbols)
      ∧ ∀ s r, (s, r) ∈ d →
          fetch_outcome net self s r
          ∧ r !! "symbol" = Some (PStr s)
          ∧ ((∃ e', r = error_record s e')
             ∨ (dom r = record_keys ∧ r !! "error" = None)).
Proof.
  intros Hraise. split; [by apply get_stock_data_error|].
  split; [unfold error_record; by rewrite dom_insert_L, dom_singleton_L|].
  intros symbols w0. unfold get_stocks_data.
  destruct (stocks_loop_spec symbols [] w0) as (d & w1 & Hloop & Hnd & Hkeys & Hall);
    [constructor..|].
  exists d, w1. split_and!; [done..| |].
  - intros s. rewrite Hkeys, elem_of_nil. tauto.
  - intros s r Hin. rewrite Forall_forall in Hall.
    pose proof (Hall _ Hin) as Hout. simpl in Hout.
    split; [done|]. by apply fetch_outcome_shape.
Qed.

End gateway_facts.

Lemma symbol_failure_is_contained_witness :
  get_stock_data net_one_answer (default_fetcher "key") "X" (World 0 [])
  = (Ok (error_record "X" (terminal_error "timeout")),
     World 4
       (let profile := "https://financialmodelingprep.com/api/v3/profile/X" in
        let income :=
          "https://financialmodelingprep.com/api/v3/income-statement/X" in
        let params := <["apikey" := VStr "key"]> period_limit in
        [ EvGet profile {[ "apikey" := VStr "key" ]};
          EvGet income params; EvSleep (Qc_of_Z 2);
          EvGet income params; EvSleep (Qc_of_Z 2);
          EvGet income params ])).
Proof.
  pose (o := get_company_profile net_one_answer (default_fetcher "key") "X"
               (World 0 [])).
  apply symbol_failure_is_contained.
  apply (raises_later _ _ _ (match o.1 with Ok v => v | Raise _ => PNone end)
           o.2); [by vm_compute|].
  apply raises_now. by vm_compute.
Defined.

(** * Further properties of the code *)

Import Effects.

(** ** What one logical request does *)

Section request_facts.
Variable net : nat → string → gmap string value → outcome.
Variable self : FinancialDataFetcher.

Lemma count_gets_app evs1 evs2 :
  count_gets (evs1 ++ evs2) = (count_gets evs1 + count_gets evs2)%nat.
Proof.
  induction evs1 as [|[] evs1 IH]; simpl; [done|by rewrite IH|done].
Qed.

Lemma count_sleeps_app s evs1 evs2 :
  count_sleeps s (evs1 ++ evs2)
  = (count_sleeps s evs1 + count_sleeps s evs2)%nat.
Proof.
  induction evs1 as [|[] evs1 IH]; simpl; [done|done|].
  case_decide; by rewrite IH.
Qed.

(** The events a run of the retry loop adds. *)
Lemma request_loop_effects url params attempts w r w' :
  request_loop net self url params attempts w = (r, w') →
  ∃ evs, trace w' = trace w ++ evs
    ∧ sent w' = (sent w + count_gets evs)%nat
    ∧ (count_gets evs ≤ length attempts)%nat
    ∧ Forall (λ ev, ev = EvGet url params
                    ∨ ev = EvSleep (Qc_of_Z (retry_delay self))) evs.
Proof.
  revert w. induction attempts as [|attempt rest IH]; intros w.
  - intros [= <- <-]. exists []. rewrite app_nil_r. simpl.
    split_and!; [done|lia|lia|constructor].
  - cbn [request_loop]. unfold mbind, M_bind, http_get.
    destruct (net (sent w) url params) as [body|msg].
    + intros [= <- <-]. exists [EvGet url params]. simpl.
      split_and!; [done|lia|lia|]. repeat constructor.
    + case_bool_decide.
      * unfold sleep. destruct (sleep_error _) as [e|].
        { intros [= <- <-]. exists [EvGet url params]. simpl.
          split_and!; [done|lia|lia|]. repeat constructor. }
        intros (evs & Htrace & Hsent & Hcount & Hall)%IH. simpl in *.
        exists (EvGet url params :: EvSleep (Qc_of_Z (retry_delay self)) :: evs).
        rewrite Htrace, Hsent, <- !app_assoc. simpl.
        split_and!; [done|lia|lia|].
        constructor; [by left|]. constructor; [by right|done].
      * intros [= <- <-]. exists [EvGet url params]. simpl.
        split_and!; [done|lia|lia|]. repeat constructor.
Qed.

Lemma make_api_request_effects endpoint params w r w' :
  _make_api_request net self endpoint params w = (r, w') →
  ∃ evs, trace w' = trace w ++ evs
    ∧ sent w' = (sent w + count_gets evs)%nat
    ∧ (count_gets evs ≤ Z.to_nat (max_retries self))%nat
    ∧ Forall (request_event self) evs.
Proof.
  unfold _make_api_request.
  intros (evs & Htrace & Hsent & Hcount & Hall)%request_loop_effects.
  exists evs. unfold range in Hcount. rewrite length_fmap, length_seq in Hcount.
  split_and!; [done..|].
  eapply Forall_impl; [done|]. intros ev [-> | ->]; simpl; [|done].
  split; [by eexists|]. apply lookup_insert_eq.
Qed.

(** X2. One logical request never sends more than [max_retries] requests;
    each request it sends goes to [base_url/endpoint] and carries the
    fetcher's API key, whatever the caller put in [params]; and it sleeps
    only for the retry delay. *)
Theorem request_budget_and_credential (endpoint : string)
    (params : gmap string value) (w : world) :
  ∃ evs,
    trace (_make_api_request net self endpoint params w).2 = trace w ++ evs
    ∧ sent (_make_api_request net self endpoint params w).2
      = (sent w + count_gets evs)%nat
    ∧ (count_gets evs ≤ Z.to_nat (max_retries self))%nat
    ∧ Forall (λ ev,
        ev = EvGet (base_url self +:+ "/" +:+ endpoint)
                   (<["apikey" := VStr (api_key self)]> params)
        ∨ ev = EvSleep (Qc_of_Z (retry_delay self))) evs.
Proof.
  destruct (_make_api_request net self endpoint params w) as [r w'] eqn:H.
  unfold _make_api_request in H.
  apply request_loop_effects in H as (evs & Htrace & Hsent & Hcount & Hall).
  exists evs. unfold range in Hcount. rewrite length_fmap, length_seq in Hcount.
  by split_and!.
Qed.

(** With a delay [time.sleep] accepts, the loop raises only when every
    attempt it had left failed. *)
Lemma request_loop_raise url params (len a : nat) w e w' :
  (a + len)%nat = Z.to_nat (max_retries self) →
  0 ≤ retry_delay self ≤ sleep_max →
  request_loop net self url params (Z.of_nat <$> seq a len) w = (Raise e, w') →
  (0 < len)%nat
  ∧ sent w' = (sent w + len)%nat
  ∧ (∀ i, (i < len)%nat →
       ∃ msg, net (sent w + i)%nat url params = RequestException msg)
  ∧ ∃ msg, net (sent w + len - 1)%nat url params = RequestException msg
           ∧ e = PyExc Exception ("API-Anfrage fehlgeschlagen: " +:+ msg).
Proof.
  intros Hlen Hdelay. revert a w Hlen.
  induction len as [|len IH]; intros a w Hlen; [done|].
  cbn [seq fmap list_fmap request_loop]. unfold mbind, M_bind, http_get.
  destruct (net (sent w) url params) as [body|msg] eqn:Hnet; [done|].
  case_bool_decide as Hlt.
  - rewrite sleep_returns by (by apply sleep_seconds_accepted).
    intros (Hpos & Hsent & Hfail & msg' & Hlast & ->)%IH; [|lia].
    simpl in *. split_and!; [lia|lia| |].
    + intros [|i] Hi; [rewrite Nat.add_0_r; eauto|].
      destruct (Hfail i) as [m Hm]; [lia|]. exists m. rewrite <- Hm. f_equal. lia.
    + exists msg'. split; [|done]. rewrite <- Hlast. f_equal. lia.
  - intros [= <- <-]. assert (len = 0%nat) as -> by lia. simpl.
    split_and!; [lia|lia| |].
    + intros i Hi. assert (i = 0%nat) as -> by lia. rewrite Nat.add_0_r. eauto.
    + exists msg. split; [|done]. rewrite <- Hnet. f_equal. lia.
Qed.

(** X3. A logical request raises in two cases only. When all
    [max_retries] attempts failed, it raises an [Exception] whose message
    is ["API-Anfrage fehlgeschlagen: "] followed by the message of the last
    attempt. And when the first of several attempts failed and
    [time.sleep] refuses the retry delay, the sleep before the second
    attempt raises, one request having been sent: [ValueError] for a
    negative delay, [OverflowError] for one beyond 9223372036 seconds
    either way. *)
Theorem request_raises_only_when_exhausted (endpoint : string)
    (params : gmap string value) (w w' : world) (e : exn) :
  _make_api_request net self endpoint params w = (Raise e, w') →
  let url := base_url self +:+ "/" +:+ endpoint in
  let params' := <["apikey" := VStr (api_key self)]> params in
  (0 < max_retries self
   ∧ (0 ≤ retry_delay self ≤ 9223372036 ∨ max_retries self = 1)
   ∧ sent w' = (sent w + Z.to_nat (max_retries self))%nat
   ∧ (∀ i, (i < Z.to_nat (max_retries self))%nat →
        ∃ msg, net (sent w + i)%nat url params' = RequestException msg)
   ∧ ∃ msg,
       net (sent w + Z.to_nat (max_retries self) - 1)%nat url params'
         = RequestException msg
       ∧ e = PyExc Exception ("API-Anfrage fehlgeschlagen: " +:+ msg))
  ∨ (1 < max_retries self
     ∧ sent w' = S (sent w)
     ∧ (∃ msg, net (sent w) url params' = RequestException msg)
     ∧ ((-9223372036 ≤ retry_delay self < 0
         ∧ e = PyExc ValueError "sleep length must be non-negative")
        ∨ ((retry_delay self < -9223372036 ∨ 9223372036 < retry_delay self)
           ∧ e = PyExc OverflowError
                   "timestamp too large to convert to C _PyTime_t"))).
Proof.
  intros H url params'.
  destruct (decide (0 ≤ retry_delay self ≤ sleep_max)) as [Hdelay|Hdelay].
  - left. unfold _make_api_request, range in H.
    apply (request_loop_raise _ _ _ 0%nat) in H
      as (Hpos & Hsent & Hfail & Hlast); [|lia|done].
    split_and!; [lia|by left|done..].
  - unfold _make_api_request, range in H. fold url params' in H.
    destruct (Z.to_nat (max_retries self)) as [|n] eqn:Hn; [done|].
    cbn [seq fmap list_fmap] in H.
    destruct (net (sent w) url params') as [body|msg] eqn:Hnet.
    { by rewrite (request_loop_step_ok _ _ _ _ _ _ _ body) in H. }
    destruct (decide (max_retries self = 1)) as [Hone|Hmore].
    + left. rewrite (request_loop_step_last _ _ _ _ _ _ _ msg) in H by (done || lia).
      injection H as <- <-. assert (n = 0%nat) as -> by lia. simpl.
      split_and!; [lia|by right|lia| |].
      * intros i Hi. assert (i = 0%nat) as -> by lia. rewrite Nat.add_0_r. eauto.
      * exists msg. split; [|done]. rewrite <- Hnet. f_equal. lia.
    + right. pose proof (sleep_error_seconds (retry_delay self)) as Herror.
      assert (Z.of_nat 0 < max_retries self - 1) as Hlt by lia.
      unfold sleep_max in *.
      destruct (decide (retry_delay self < -9223372036
                        ∨ 9223372036 < retry_delay self)) as [Hbig|Hfits].
      * rewrite decide_True in Herror by done.
        rewrite (request_loop_step_refused _ _ _ _ _ _ _ _ _ Hnet Hlt Herror) in H.
        injection H as <- <-. simpl. split_and!; [lia|done|eauto|by right].
      * rewrite decide_False in Herror by done.
        rewrite decide_True in Herror by lia.
        rewrite (request_loop_step_refused _ _ _ _ _ _ _ _ _ Hnet Hlt Herror) in H.
        injection H as <- <-. simpl. split_and!; [lia|done|eauto|].
        left. split; [lia|done].
Qed.

End request_facts.

Lemma request_raises_only_when_exhausted_witness :
  ∃ msg,
    net_one_answer (1 + 0)%nat
      "https://financialmodelingprep.com/api/v3/ratios/X"
      (<["apikey" := VStr "key"]> period_limit)
    = RequestException msg.
Proof.
  destruct (request_raises_only_when_exhausted net_one_answer
              (default_fetcher "key") "ratios/X" period_limit (World 1 [])
              (World 4
                 (let url := "https://financialmodelingprep.com/api/v3/ratios/X" in
                  let params := <["apikey" := VStr "key"]> period_limit in
                  [ EvGet url params; EvSleep (Qc_of_Z 2);
                    EvGet url params; EvSleep (Qc_of_Z 2);
                    EvGet url params ]))
              (PyExc Exception "API-Anfrage fehlgeschlagen: timeout"))
    as [(_ & _ & _ & Hfail & _) | (_ & Hsent & _)]; [by vm_compute| |].
  - apply (Hfail 0%nat). simpl. lia.
  - discriminate Hsent.
Defined.

(** The second case occurs: with a retry delay of -1 the first failure
    ends the request, after one request and with no retry. *)
Lemma negative_delay_stops_retries :
  _make_api_request (λ _ _ _, RequestException "503") (__init__ "key" 3 (-1))
    "quote/X" ∅ (World 0 [])
  = (Raise (PyExc ValueError "sleep length must be non-negative"),
     World 1
       [ EvGet "https://financialmodelingprep.com/api/v3/quote/X"
           {[ "apikey" := VStr "key" ]} ]).
Proof. reflexivity. Qed.

(** ** What a fetch does *)

Section effects_facts.
Context {A B : Type}.
Implicit Types (P : event → Prop).

Lemma adds_ret P (a : A) : adds P 0 (mret a).
Proof.
  intros w r w' [= <- <-]. exists []. rewrite app_nil_r. simpl.
  split_and!; [done|lia|lia|constructor].
Qed.

Lemma adds_lift P (r : res A) : adds P 0 (lift r).
Proof.
  intros w r' w' [= <- <-]. exists []. rewrite app_nil_r. simpl.
  split_and!; [done|lia|lia|constructor].
Qed.

Lemma adds_bind P (n m : nat) (g : M A) (f : A → M B) :
  adds P n g → (∀ a, adds P m (f a)) → adds P (n + m) (g ≫= f).
Proof.
  intros Hg Hf w r w'. unfold mbind, M_bind.
  destruct (g w) as [[a|e] w1] eqn:Hgw.
  - destruct (Hg _ _ _ Hgw) as (evs1 & Ht1 & Hs1 & Hc1 & Hall1).
    intros (evs2 & Ht2 & Hs2 & Hc2 & Hall2)%Hf.
    exists (evs1 ++ evs2). rewrite count_gets_app, Ht2, Ht1, Hs2, Hs1, app_assoc.
    split_and!; [done|lia|lia|by apply Forall_app].
  - destruct (Hg _ _ _ Hgw) as (evs1 & Ht1 & Hs1 & Hc1 & Hall1).
    intros [= <- <-]. exists evs1. split_and!; [done|done|lia|done].
Qed.

Lemma adds_weaken P (n m : nat) (g : M A) :
  (n ≤ m)%nat → adds P n g → adds P m g.
Proof.
  intros Hle Hg w r w' (evs & Ht & Hs & Hc & Hall)%Hg.
  exists evs. split_and!; [done|done|lia|done].
Qed.

Lemma adds_try_except P (n : nat) (g : M A) (handler : exn → M A) :
  adds P n g → (∀ e, adds P 0 (handler e)) → adds P n (try_except g handler).
Proof.
  intros Hg Hh w r w'. unfold try_except.
  destruct (g w) as [[a|e] w1] eqn:Hgw;
    destruct (Hg _ _ _ Hgw) as (evs1 & Ht1 & Hs1 & Hc1 & Hall1).
  - intros [= <- <-]. by exists evs1.
  - intros (evs2 & Ht2 & Hs2 & Hc2 & Hall2)%Hh.
    exists (evs1 ++ evs2). rewrite count_gets_app, Ht2, Ht1, Hs2, Hs1, app_assoc.
    split_and!; [done|lia|lia|by apply Forall_app].
Qed.

End effects_facts.

Section budget_facts.
Variable net : nat → string → gmap string value → outcome.
Variable self : FinancialDataFetcher.

Let N : nat := Z.to_nat (max_retries self).

Lemma adds_make_api_request endpoint params :
  adds (request_event self) N (_make_api_request net self endpoint params).
Proof. intros w r w'. apply make_api_request_effects. Qed.

Lemma adds_unwrapped endpoint params :
  adds (request_event self) N
    (_make_api_request net self endpoint params ≫= unwrap).
Proof.
  rewrite <- (Nat.add_0_r N). apply adds_bind; [apply adds_make_api_request|].
  intros data. unfold unwrap. destruct (truthy data);
    [apply adds_lift | apply adds_ret].
Qed.

(** The fetch of one symbol sends at most seven times [max_retries]
    requests, and adds nothing but the events of its requests. *)
Lemma adds_get_stock_data symbol :
  adds (request_event self) (7 * N) (get_stock_data net self symbol).
Proof.
  unfold get_stock_data. apply adds_try_except; [|intros e; apply adds_ret].
  replace (7 * N)%nat with (N + (N + (N + (N + (N + (N + (N + 0)))))))%nat by lia.
  repeat (apply adds_bind;
          [first [apply adds_unwrapped | apply adds_make_api_request]
          |intros ?]).
  apply adds_ret.
Qed.

Lemma half_is_no_retry_delay (d : Z) : Qc_of_Z d ≠ Q2Qc 0.5.
Proof.
  intros H. apply (f_equal (λ q, Qden (this q))) in H. vm_compute in H.
  discriminate.
Qed.

Lemma request_events_no_pacing evs :
  Forall (request_event self) evs → count_sleeps (Q2Qc 0.5) evs = 0%nat.
Proof.
  induction 1 as [|[url p|s] evs Hev _ IH]; simpl; [done..|].
  simpl in Hev. subst. rewrite decide_False by apply half_is_no_retry_delay.
  done.
Qed.

Lemma stocks_loop_effects symbols acc w r w' :
  stocks_loop net self symbols acc w = (r, w') →
  ∃ evs, trace w' = trace w ++ evs
    ∧ sent w' = (sent w + count_gets evs)%nat
    ∧ (count_gets evs ≤ 7 * N * length symbols)%nat
    ∧ count_sleeps (Q2Qc 0.5) evs = length symbols.
Proof.
  revert acc w. induction symbols as [|symbol rest IH]; intros acc w.
  - intros [= <- <-]. exists []. rewrite app_nil_r. simpl.
    split_and!; [done|lia|lia|done].
  - cbn [stocks_loop]. unfold mbind, M_bind.
    destruct (get_stock_data_total net self symbol w) as (rec & w1 & Hrec).
    rewrite Hrec, sleep_pacing.
    destruct (adds_get_stock_data symbol _ _ _ Hrec)
      as (evs1 & Ht1 & Hs1 & Hc1 & Hall1).
    intros (evs2 & Ht2 & Hs2 & Hc2 & Hp2)%IH. simpl in *.
    exists (evs1 ++ EvSleep (Q2Qc 0.5) :: evs2).
    rewrite count_gets_app, count_sleeps_app, Ht2, Ht1, Hs2, Hs1.
    rewrite (request_events_no_pacing _ Hall1).
    cbn [count_gets count_sleeps]. rewrite decide_True by done.
    rewrite <- !app_assoc. cbn [length app].
    split_and!; [done|lia|lia|lia].
Qed.

(** X5. Fetching a batch sends at most [7 * max_retries] requests per
    symbol, and pauses for half a second exactly once per symbol, whether
    its fetch succeeded or not. *)
Theorem batch_request_budget (symbols : list string) (w : world) :
  ∃ evs,
    trace (get_stocks_data net self symbols w).2 = trace w ++ evs
    ∧ sent (get_stocks_data net self symbols w).2
      = (sent w + count_gets evs)%nat
    ∧ (count_gets evs
       ≤ 7 * Z.to_nat (max_retries self) * length symbols)%nat
    ∧ count_sleeps (Q2Qc 0.5) evs = length symbols.
Proof.
  destruct (get_stocks_data net self symbols w) as [r w'] eqn:H.
  by apply stocks_loop_effects in H.
Qed.

End budget_facts.

Section gateway_edges.
Variable net : nat → string → gmap string value → outcome.
Variable self : FinancialDataFetcher.

Lemma make_api_request_no_attempt endpoint params w :
  max_retries self ≤ 0 →
  _make_api_request net self endpoint params w = (Ok PNone, w).
Proof.
  intros Hle. unfold _make_api_request, range.
  by replace (Z.to_nat (max_retries self)) with 0%nat by lia.
Qed.

(** X1. With [max_retries ≤ 0] no request is ever sent, and yet nothing
    is raised: the fetch of a symbol returns at once a record without an
    [error] key, whose sub-records are empty objects and [None]. *)
Theorem no_retries_no_requests (symbol : string) (w : world) :
  max_retries self ≤ 0 →
  get_stock_data net self symbol w
  = (Ok (full_record symbol (PObj ∅) PNone PNone PNone PNone PNone (PObj ∅)), w)
  ∧ full_record symbol (PObj ∅) PNone PNone PNone PNone PNone (PObj ∅)
      !! "error" = None.
Proof.
  intros Hle. split; [|done].
  unfold get_stock_data, try_except, mbind, M_bind, get_company_profile,
    get_income_statement, get_balance_sheet, get_key_metrics, get_ratios,
    get_growth, get_stock_quote, mbind, M_bind.
  repeat (rewrite make_api_request_no_attempt by done; simpl).
  reflexivity.
Qed.

Lemma make_api_request_first_answer endpoint params w body :
  0 < max_retries self →
  net (sent w) (base_url self +:+ "/" +:+ endpoint)
    (<["apikey" := VStr (api_key self)]> params) = Response body →
  _make_api_request net self endpoint params w
  = (Ok body,
     World (S (sent w))
       (trace w ++ [EvGet (base_url self +:+ "/" +:+ endpoint)
                      (<["apikey" := VStr (api_key self)]> params)])).
Proof.
  intros Hpos Hnet. unfold _make_api_request, range.
  replace (Z.to_nat (max_retries self))
    with (S (Z.to_nat (max_retries self) - 1)) by lia.
  cbn [seq fmap list_fmap]. by apply request_loop_step_ok.
Qed.

(** X4. When the provider answers the profile request with a non-empty
    JSON object instead of a list (its error payload, for one), [data[0]]
    raises [KeyError(0)]: the fetch of the symbol ends after this single
    request with the error record whose error text is ["0"]. *)
Theorem object_payload_is_an_error (symbol : string) (w : world)
    (o : gmap string value) :
  0 < max_retries self →
  o ≠ ∅ →
  net (sent w) (base_url self +:+ "/" +:+ ("profile/" +:+ symbol))
    {[ "apikey" := VStr (api_key self) ]} = Response (PObj o) →
  get_stock_data net self symbol w
  = (Ok ({[ "symbol" := PStr symbol; "error" := PStr "0" ]}
           : gmap string pyval),
     World (S (sent w))
       (trace w ++ [EvGet (base_url self +:+ "/" +:+ ("profile/" +:+ symbol))
                      {[ "apikey" := VStr (api_key self) ]}])).
Proof.
  intros Hpos Hne Hnet.
  change (Ok ({[ "symbol" := PStr symbol; "error" := PStr "0" ]}
                : gmap string pyval))
    with (Ok (error_record symbol (PyExc KeyError "0"))).
  apply get_stock_data_error. apply raises_now.
  unfold get_company_profile, mbind, M_bind.
  rewrite (make_api_request_first_answer _ _ _ (PObj o)) by done.
  unfold unwrap, truthy, lift.
  destruct (decide (size o = 0%nat)) as [Hsize|Hsize].
  - by apply map_size_empty_iff in Hsize.
  - apply Nat.eqb_neq in Hsize. by rewrite Hsize.
Qed.

(** The keys of the batch dictionary. *)
Lemma stocks_loop_keys symbols acc w d w' :
  stocks_loop net self symbols acc w = (Ok d, w') →
  d.*1 = foldl (λ keys s, if decide (s ∈ keys) then keys else keys ++ [s])
           acc.*1 symbols.
Proof.
  revert acc w. induction symbols as [|symbol rest IH]; intros acc w.
  - by intros [= <- <-].
  - cbn [stocks_loop]. unfold mbind, M_bind.
    destruct (get_stock_data_total net self symbol w) as (rec & w1 & Hrec).
    rewrite Hrec, sleep_pacing.
    intros ->%IH. by rewrite dict_set_keys.
Qed.

Lemma filter_all {A : Type} (P : A → Prop) `{!∀ x, Decision (P x)} (l : list A) :
  (∀ x, P x) → filter P l = l.
Proof.
  intros HP. induction l as [|x l IH]; [done|].
  by rewrite filter_cons, decide_True, IH.
Qed.

Lemma fold_keys_first_occurrences (keys symbols : list string) :
  foldl (λ keys s, if decide (s ∈ keys) then keys else keys ++ [s]) keys symbols
  = keys ++ filter (λ x, x ∉ keys) (first_occurrences symbols).
Proof.
  revert keys. induction symbols as [|s rest IH]; intros keys.
  - simpl. by rewrite app_nil_r.
  - change (foldl ?f ?a (?x :: ?l)) with (foldl f (f a x) l).
    cbn [first_occurrences]. rewrite IH, filter_cons, list_filter_filter.
    destruct (decide (s ∈ keys)) as [Hin|Hin].
    + rewrite decide_False by tauto. f_equal.
      apply list_filter_iff. intros x. split; [|tauto].
      intros Hx. split; [done|]. by intros ->.
    + rewrite decide_True by done. rewrite <- app_assoc. simpl. do 2 f_equal.
      apply list_filter_iff. intros x.
      rewrite elem_of_app, list_elem_of_singleton. tauto.
Qed.

(** An entry stays as it is while other symbols are fetched. *)
Lemma stocks_loop_keeps symbols acc w d w' s r :
  s ∉ symbols → (s, r) ∈ acc →
  stocks_loop net self symbols acc w = (Ok d, w') → (s, r) ∈ d.
Proof.
  revert acc w. induction symbols as [|symbol rest IH]; intros acc w.
  - by intros _ Hin [= <- <-].
  - rewrite not_elem_of_cons. intros [Hne Hnotin] Hin.
    cbn [stocks_loop]. unfold mbind, M_bind.
    destruct (get_stock_data_total net self symbol w) as (rec & w1 & Hrec).
    rewrite Hrec, sleep_pacing.
    apply IH; [done|]. clear -Hne Hin.
    induction acc as [|[k v] acc IHacc]; simpl; [by apply elem_of_nil in Hin|].
    apply elem_of_cons in Hin as [[= <- <-] | Hin].
    + rewrite decide_False by done. left.
    + case_decide; [by right|]. right. by apply IHacc.
Qed.

Lemma stocks_loop_app symbols1 symbols2 acc w :
  stocks_loop net self (symbols1 ++ symbols2) acc w
  = match stocks_loop net self symbols1 acc w with
    | (Ok d, w1) => stocks_loop net self symbols2 d w1
    | (Raise e, w1) => (Raise e, w1)
    end.
Proof.
  revert acc w. induction symbols1 as [|symbol rest IH]; intros acc w; [done|].
  cbn [app stocks_loop]. unfold mbind, M_bind.
  destruct (get_stock_data net self symbol w) as [[rec|e] w1]; [|done].
  rewrite sleep_pacing. apply IH.
Qed.

Lemma dict_set_elem {V : Type} (k : string) (v : V) (d : list (string * V)) :
  (k, v) ∈ dict_set k v d.
Proof.
  induction d as [|[k' v'] d IH]; simpl; [left|].
  case_decide; [left | by right].
Qed.

(** X6. The batch dictionary lists the symbols in the order of their
    first occurrence, each once; and a symbol named more than once is
    fetched each time, the record of its last fetch being the one kept. *)
Theorem batch_keys_and_overwrite (before after : list string) (symbol : string)
    (w : world) :
  symbol ∉ after →
  ∃ d w' d1 w1 r w2,
    get_stocks_data net self (before ++ symbol :: after) w = (Ok d, w')
    ∧ d.*1 = first_occurrences (before ++ symbol :: after)
    ∧ get_stocks_data net self before w = (Ok d1, w1)
    ∧ get_stock_data net self symbol w1 = (Ok r, w2)
    ∧ (symbol, r) ∈ d.
Proof.
  intros Hnotin. unfold get_stocks_data.
  destruct (stocks_loop_spec net self before [] w) as (d1 & w1 & H1 & _);
    [constructor..|].
  destruct (get_stock_data_total net self symbol w1) as (r & w2 & Hr).
  destruct (stocks_loop_spec net self (before ++ symbol :: after) [] w)
    as (d & w' & Hd & _); [constructor..|].
  exists d, w', d1, w1, r, w2. split_and!; [done| |done|done|].
  - apply stocks_loop_keys in Hd. rewrite Hd, fold_keys_first_occurrences.
    simpl. apply filter_all. intros x. apply not_elem_of_nil.
  - rewrite stocks_loop_app, H1 in Hd. cbn [stocks_loop] in Hd.
    unfold mbind, M_bind in Hd. rewrite Hr, sleep_pacing in Hd.
    eapply stocks_loop_keeps; [done| |done]. apply dict_set_elem.
Qed.

End gateway_edges.

Lemma no_retries_no_requests_witness :
  get_stock_data net_one_answer (__init__ "key" 0 2) "X" (World 0 [])
  = (Ok (full_record "X" (PObj ∅) PNone PNone PNone PNone PNone (PObj ∅)),
     World 0 []).
Proof.
  apply (no_retries_no_requests net_one_answer (__init__ "key" 0 2)).
  simpl. lia.
Defined.

Lemma object_payload_is_an_error_witness :
  (get_stock_data
     (λ _ _ _, Response (PObj {[ "Error Message" := VStr "Limit Reach" ]}))
     (default_fetcher "key") "X" (World 0 [])).1
  = Ok ({[ "symbol" := PStr "X"; "error" := PStr "0" ]} : gmap string pyval).
Proof.
  rewrite (object_payload_is_an_error
             (λ _ _ _, Response (PObj {[ "Error Message" := VStr "Limit Reach" ]}))
             (default_fetcher "key") "X" (World 0 [])
             {[ "Error Message" := VStr "Limit Reach" ]});
    [reflexivity | simpl; lia | | reflexivity].
  intros H. apply (f_equal (λ m, m !! "Error Message")) in H. discriminate.
Defined.

Lemma batch_keys_and_overwrite_witness :
  ∃ d w', get_stocks_data net_one_answer (default_fetcher "key")
            ["A"; "B"; "A"] (World 0 []) = (Ok d, w')
          ∧ d.*1 = ["A"; "B"].
Proof.
  destruct (batch_keys_and_overwrite net_one_answer (default_fetcher "key")
              ["A"; "B"] [] "A" (World 0 []))
    as (d & w' & _ & _ & _ & _ & Hd & Hkeys & _); [apply not_elem_of_nil|].
  exists d, w'. split; [exact Hd|]. rewrite Hkeys. reflexivity.
Defined.

(** ** The results dictionary *)

Lemma metrics_step_derived_row results item :
  item.1 ∉ results.*1 →
  metrics_step results item = results ++ option_list (derived_row item).
Proof.
  destruct item as [s data]. unfold metrics_step, derived_row. simpl.
  intros Hfresh. case_decide; [by rewrite app_nil_r|].
  destruct (derive s data); simpl; [by apply dict_set_fresh|by rewrite app_nil_r].
Qed.

Lemma derived_row_key item row : derived_row item = Some row → row.1 = item.1.
Proof.
  unfold derived_row. case_decide; [done|].
  destruct (derive _ _); [by intros [= <-] | done].
Qed.

Lemma metrics_loop_omap stocks_data acc :
  NoDup (acc.*1 ++ stocks_data.*1) →
  foldl metrics_step acc stocks_data = acc ++ omap derived_row stocks_data.
Proof.
  revert acc. induction stocks_data as [|item sd IH]; intros acc Hnd.
  - simpl. by rewrite app_nil_r.
  - rewrite fmap_cons in Hnd.
    change (foldl ?f ?a (?x :: ?l)) with (foldl f (f a x) l).
    assert (item.1 ∉ acc.*1) as Hfresh.
    { apply NoDup_app in Hnd as (_ & Hdisj & _). intros Hin.
      apply (Hdisj _ Hin). left. }
    rewrite metrics_step_derived_row by done. rewrite IH.
    + simpl. destruct (derived_row item); simpl; by rewrite <- app_assoc.
    + rewrite fmap_app. destruct (derived_row item) as [row|] eqn:Hrow; simpl.
      * apply derived_row_key in Hrow. rewrite <- Hrow in Hnd.
        rewrite <- app_assoc. exact Hnd.
      * rewrite app_nil_r. apply NoDup_app in Hnd as (Hacc & Hdisj & Hsd).
        apply NoDup_app. split_and!; [done| |by apply NoDup_cons in Hsd as [_ ?]].
        intros x Hx Hin. apply (Hdisj _ Hx). by right.
Qed.

(** X7. For a batch with distinct symbols the results are, in the order
    of the batch, the derived records of the entries that carry no error
    and whose derivation does not raise; nothing else is stored. *)
Theorem results_are_derived_rows (stocks_data : list (string * gmap string pyval)) :
  NoDup stocks_data.*1 →
  _calculate_metrics stocks_data = omap derived_row stocks_data.
Proof.
  intros Hnd. unfold _calculate_metrics. by rewrite metrics_loop_omap.
Qed.

Lemma results_are_derived_rows_witness :
  (_calculate_metrics
     [ ("DDD", Samples.data_null_dividend);
       ("AAA", error_record "AAA" (terminal_error "timeout"));
       ("BBB", Samples.data_quote_only) ]).*1
  = ["BBB"].
Proof.
  rewrite results_are_derived_rows; [by vm_compute|].
  apply (bool_decide_unpack _). by vm_compute.
Defined.

(** ** Scoring the results *)

Lemma mapM_res_Forall2 {A B : Type} (f : A → res B) (l : list A) (k : list B) :
  mapM f l = Ok k ↔ Forall2 (λ x y, f x = Ok y) l k.
Proof.
  revert k. induction l as [|x l IH]; intros k.
  - split; [intros [= <-]; constructor | by inversion 1].
  - change (mapM f (x :: l)) with (y ← f x; k' ← mapM f l; mret (y :: k')).
    split.
    + intros (y & Hy & (k' & Hk' & [= <-])%res_bind_Ok)%res_bind_Ok.
      constructor; [done|]. by apply IH.
    + inversion 1 as [|? y ? k' Hy Hk']; subst. apply IH in Hk'.
      by rewrite Hy, res_bind_ok, Hk'.
Qed.

Lemma score_ignores_score_field (m : gmap string value) (v : value) :
  score (<["score" := v]> m) = score m.
Proof. apply score_reads_four_fields; by rewrite lookup_insert_ne. Qed.

Lemma getitem_gt_Ok (m : gmap string value) (key : string) (c : Z) (b : bool) :
  getitem m key ≫= (λ v, py_gt v c) = Ok b → ∃ q, m !! key = Some (VNum q).
Proof.
  unfold getitem. destruct (m !! key) as [[|q|]|]; try discriminate. eauto.
Qed.

Lemma getitem_lt_Ok (m : gmap string value) (key : string) (c : Z) (b : bool) :
  getitem m key ≫= (λ v, py_lt v c) = Ok b → ∃ q, m !! key = Some (VNum q).
Proof.
  unfold getitem. destruct (m !! key) as [[|q|]|]; try discriminate. eauto.
Qed.

(** A score that is returned lies between 0 and 10. *)
Lemma score_Ok_range (m : gmap string value) (s : Z) :
  score m = Ok s → 0 ≤ s ≤ 10.
Proof.
  intros Hs. pose proof Hs as H. unfold score in H. cbv zeta in H.
  apply res_bind_Ok in H as (low_pe & Hpe & H).
  apply res_bind_Ok in Hpe as (a & [pe Hpe]%getitem_gt_Ok & _).
  apply res_bind_Ok in H as (high_dividend & [dy Hdy]%getitem_gt_Ok & H).
  apply res_bind_Ok in H as (high_growth & [rg Hrg]%getitem_gt_Ok & H).
  apply res_bind_Ok in H as (low_debt & [dr Hdr]%getitem_lt_Ok & _).
  destruct (score_range m pe dy rg dr) as (s' & Hs' & Hrange); [done..|].
  rewrite Hs' in Hs. by injection Hs as <-.
Qed.

(** The rows [analyze] returns, one for each derived row. *)
Lemma analyze_rows (stocks_data : list (string * gmap string pyval))
    (scored : list (string * gmap string value)) :
  analyze stocks_data = Ok scored →
  Forall2 (λ row row', ∃ s, score row.2 = Ok s ∧ 0 ≤ s ≤ 10
                            ∧ row' = (row.1, <["score" := num s]> row.2))
    (_calculate_metrics stocks_data) scored.
Proof.
  unfold analyze. intros H.
  rewrite calculate_scores_rows in H by apply calculate_metrics_NoDup.
  apply mapM_res_Forall2 in H.
  eapply Forall2_impl; [done|]. intros row row' Hrow.
  unfold score_row in Hrow.
  apply res_bind_Ok in Hrow as (s & Hs & [= <-]). exists s.
  split; [done|]. split; [by eapply score_Ok_range|done].
Qed.

(** X8. When [analyze] returns, its rows are the derived rows in the same
    order, each with nothing changed but the [score] field, which holds
    the score of the row, an integer from 0 to 10; and scoring the result
    once more changes nothing. *)
Theorem scoring_sets_the_score_only (stocks_data : list (string * gmap string pyval))
    (scored : list (string * gmap string value)) :
  analyze stocks_data = Ok scored →
  Forall2 (λ row row', ∃ s, score row.2 = Ok s ∧ 0 ≤ s ≤ 10
                            ∧ row' = (row.1, <["score" := num s]> row.2))
    (_calculate_metrics stocks_data) scored
  ∧ _calculate_scores scored = Ok scored.
Proof.
  intros H. pose proof (analyze_rows _ _ H) as Hrows. split; [done|].
  pose proof (calculate_metrics_NoDup stocks_data) as Hnd.
  pose proof (scores_loop_keys _ _ _ H) as Hkeys.
  rewrite calculate_scores_rows by (by rewrite Hkeys).
  apply mapM_res_Forall2. apply Forall2_same_length_lookup_2.
  { by rewrite <- (Forall2_length _ _ _ Hrows). }
  intros i row' row'' Hi Hi'. rewrite Hi in Hi'. injection Hi' as <-.
  destruct (Forall2_lookup_r _ _ _ _ _ Hrows Hi) as (row & _ & s & Hs & _ & ->).
  unfold score_row. simpl.
  by rewrite score_ignores_score_field, Hs, res_bind_ok, insert_insert_eq.
Qed.

Lemma scoring_sets_the_score_only_witness :
  ∃ scored, analyze [ ("BBB", Samples.data_quote_only) ] = Ok scored
            ∧ _calculate_scores scored = Ok scored.
Proof.
  destruct (is_ok_inv (analyze [ ("BBB", Samples.data_quote_only) ]))
    as [scored E]; [by vm_compute|].
  exists scored. split; [done|].
  by destruct (scoring_sets_the_score_only _ _ E) as [_ Hagain].
Defined.

(** X9. A record without a ratios sub-record and with fewer than five
    growth entries scores exactly 2, the points of the debt rule: the
    defaulted debt ratio 0 is below 40, and no other rule is met. *)
Theorem missing_data_scores_two (symbol : string) (data : gmap string pyval)
    (m : gmap string value) :
  data !! "ratios" = None →
  (length (growth_entries data) < 5)%nat →
  derive symbol data = Ok m →
  score m = Ok 2.
Proof.
  intros Hratios Hgrowth Hd.
  pose proof (derive_without_ratios _ _ _ Hratios Hd) as Hzero.
  pose proof (derive_growth_field _ _ _ Hd) as Hrg.
  rewrite growth_short_spec in Hrg by done.
  rewrite !Forall_cons in Hzero.
  destruct Hzero as (Hpe & _ & _ & Hdy & _ & Hdebt & _).
  by rewrite (score_numeric m (Qc_of_Z 0) (Qc_of_Z 0) (Qc_of_Z 0) (Qc_of_Z 0)).
Qed.

Lemma missing_data_scores_two_witness :
  ∃ m, derive "BBB" Samples.data_quote_only = Ok m ∧ score m = Ok 2.
Proof.
  destruct (is_ok_inv (derive "BBB" Samples.data_quote_only)) as [m E];
    [by vm_compute|].
  exists m. split; [done|].
  apply (missing_data_scores_two "BBB" Samples.data_quote_only m);
    [reflexivity | vm_compute; lia | exact E].
Defined.

(** ** Records the derivation accepts and rejects *)

Lemma first_or_empty_list (data : gmap string pyval) (key : string) :
  absent_or_list data key →
  first_or_empty data key = Ok (PObj (default ∅ (latest data key))).
Proof.
  unfold absent_or_list, first_or_empty, latest.
  by destruct (data !! key) as [[| | |[|o l]]|].
Qed.

Lemma default_object (data : gmap string pyval) (key : string) :
  absent_or_object data key →
  default (PObj ∅) (data !! key) = PObj (default ∅ (object_of data key)).
Proof.
  unfold absent_or_object, object_of. by destruct (data !! key) as [[]|].
Qed.

Lemma growth_or_empty_list (data : gmap string pyval) :
  absent_or_list data "growth" →
  growth_or_empty data = PList (growth_entries data).
Proof.
  unfold absent_or_list, growth_or_empty, growth_entries.
  by destruct (data !! "growth") as [[| | |[|o l]]|].
Qed.

Lemma valid_rates_mean (w : list (gmap string value)) :
  Forall (λ g, number_or_null (rate g)) w →
  mapM as_num (valid (rate <$> w)) = Ok (nonnull_rates w).
Proof.
  unfold valid, nonnull_rates.
  induction 1 as [|g w Hg _ IH]; [done|].
  rewrite fmap_cons, filter_cons. simpl.
  destruct (rate g) as [|q|s]; simpl in *; [done| |done].
  change (mapM ?f (?x :: ?l)) with (y ← f x; k ← mapM f l; mret (y :: k)).
  by rewrite IH.
Qed.

Lemma revenue_growth_total (l : list (gmap string value)) :
  Forall (λ g, number_or_null (rate g)) (take 5 l) →
  revenue_growth (PList l) = Ok (VNum (revenue_growth_5y_spec l)).
Proof.
  intros Hrates.
  destruct (revenue_growth (PList l)) as [v|e] eqn:Hv;
    [by apply revenue_growth_list in Hv as -> |].
  exfalso. revert Hv. unfold revenue_growth. simpl.
  case_bool_decide; [|done]. rewrite mapM_get_rates. simpl.
  unfold np_mean. rewrite (valid_rates_mean _ Hrates).
  by destruct (valid _).
Qed.

Lemma mul100_not_null (v : value) : v ≠ VNone → ∃ v', mul100 v = Ok v'.
Proof. destruct v; cbn [mul100]; [done|eauto..]. Qed.

(** X10. The derivation of a well-shaped record does not raise: the
    profile and the quote absent or objects, the five series absent, [None]
    or lists of objects, each of the three ratios turned into percentages
    absent, a number or a string, and the revenue growth of each of the
    five latest periods absent, null or a number within the range of a
    64-bit integer are enough for the symbol to get its metrics. *)
Theorem derive_accepts_well_shaped (symbol : string) (data : gmap string pyval) :
  well_shaped data → ∃ m, derive symbol data = Ok m.
Proof.
  intros (Hprofile & Hquote & Hlists & Hpercent & Hrates).
  rewrite !Forall_cons in Hlists.
  destruct Hlists as (Hincome & Hbalance & Hkm & Hratios & Hgrowth & _).
  unfold derive.
  rewrite !first_or_empty_list, !default_object, growth_or_empty_list by done.
  rewrite !res_bind_ok, !py_get_obj, !res_bind_ok.
  rewrite revenue_growth_total by done.
  assert (∀ field,
    field ∈ ["dividendYield"; "returnOnEquity"; "debtRatio"] →
    ∃ v, mul100 (default (num 0) (default ∅ (latest data "ratios") !! field))
         = Ok v) as Hmul.
  { intros field Hfield. apply mul100_not_null.
    destruct (latest data "ratios") as [r|] eqn:Hr; simpl; [|by rewrite lookup_empty].
    specialize (Hpercent r eq_refl). rewrite Forall_forall in Hpercent.
    specialize (Hpercent field Hfield). unfold absent_number_or_string in Hpercent.
    by destruct (r !! field) as [[]|]. }
  destruct (Hmul "dividendYield") as [dy ->]; [set_solver|].
  destruct (Hmul "returnOnEquity") as [roe ->]; [set_solver|].
  destruct (Hmul "debtRatio") as [debt ->]; [set_solver|].
  rewrite !res_bind_ok. eauto.
Qed.

Lemma derive_accepts_well_shaped_witness :
  ∃ m, derive "AAA" Samples.data_complete = Ok m.
Proof.
  apply derive_accepts_well_shaped. unfold well_shaped. split_and!.
  - by vm_compute.
  - by vm_compute.
  - repeat constructor; by vm_compute.
  - intros r [= <-]. repeat constructor; by vm_compute.
  - repeat constructor; by vm_compute.
Defined.

(** The end-to-end example of the specification: the percentages come out
    as 4.0, 30.0 and 12.0 in binary64 arithmetic too, and the score is
    10. *)
Lemma complete_record_scores_ten :
  ∃ m, derive "AAA" Samples.data_complete = Ok m
       ∧ m !! "dividend_yield" = Some (num 4)
       ∧ m !! "debt_ratio" = Some (num 30)
       ∧ m !! "revenue_growth_5y" = Some (num 12)
       ∧ score m = Ok 10.
Proof.
  destruct (is_ok_inv (derive "AAA" Samples.data_complete)) as [m E];
    [by vm_compute|].
  exists m. split; [done|].
  pose proof E as (profile & income & ratios & quote & dy & rg & roe & debt
    & _ & _ & Hr & _ & Hdy & Hrg & _ & Hdebt & Hm)%derive_Ok.
  injection Hr as <-.
  assert (dy = num 4) as ->.
  { vm_compute in Hdy. injection Hdy as <-. unfold num. f_equal.
    by apply Qc_is_canon. }
  assert (debt = num 30) as ->.
  { vm_compute in Hdebt. injection Hdebt as <-. unfold num. f_equal.
    by apply Qc_is_canon. }
  assert (rg = num 12) as ->.
  { vm_compute in Hrg. injection Hrg as <-. unfold num. f_equal.
    by apply Qc_is_canon. }
  subst m. split_and!; [done..|].
  by apply (score_numeric _ (Qc_of_Z 12) (Qc_of_Z 4) (Qc_of_Z 12) (Qc_of_Z 30)).
Qed.

(** With nothing but the history [0.1, 0.2, 0.0, null, null] a symbol
    scores 5: 2 points of the debt rule and the 3 points of the growth
    rule, which a mean of exactly 10 would not give. *)
Lemma rounding_meets_growth_rule :
  ∃ m, derive "EEE" Samples.data_growth_rounded = Ok m ∧ score m = Ok 5.
Proof.
  destruct (is_ok_inv (derive "EEE" Samples.data_growth_rounded)) as [m E];
    [by vm_compute|].
  exists m. split; [done|].
  assert (Samples.data_growth_rounded !! "ratios" = None) as Hratios
    by reflexivity.
  pose proof (derive_without_ratios _ _ _ Hratios E) as Hzero.
  rewrite !Forall_cons in Hzero.
  destruct Hzero as (Hpe & _ & _ & Hdy & _ & Hdebt & _).
  pose proof E as (profile & income & ratios & quote & dy & rg & roe & debt
    & _ & _ & _ & _ & _ & Hrg & _ & _ & Hm)%derive_Ok.
  assert (growth_or_empty Samples.data_growth_rounded
          = PList Samples.growth_rounded) as Hgrowth by reflexivity.
  rewrite Hgrowth, (proj1 growth_rounding_shows) in Hrg. injection Hrg as <-.
  assert (m !! "revenue_growth_5y"
          = Some (VNum (Q2Qc (5629499534213121 # 562949953421312)))) as Hg
    by (by subst m).
  by rewrite (score_numeric m (Qc_of_Z 0) (Qc_of_Z 0) _ (Qc_of_Z 0) Hpe Hdy Hg Hdebt).
Qed.

Lemma first_or_empty_raise (data : gmap string pyval) (key : string) (e : exn) :
  first_or_empty data key = Raise e → e = PyExc KeyError "0".
Proof.
  unfold first_or_empty.
  destruct (data !! key) as [[|s|o|[|o l]]|]; simpl; try discriminate.
  - destruct s; simpl; discriminate.
  - destruct (negb _); [by intros [= <-] | discriminate].
Qed.

Lemma first_or_empty_object (data : gmap string pyval) (key : string)
    (o : gmap string value) :
  data !! key = Some (PObj o) → o ≠ ∅ →
  first_or_empty data key = Raise (PyExc KeyError "0").
Proof.
  intros Hkey Hne. unfold first_or_empty. rewrite Hkey. simpl.
  destruct (decide (size o = 0%nat)) as [Hsize|Hsize].
  - by apply map_size_empty_iff in Hsize.
  - apply Nat.eqb_neq in Hsize. by rewrite Hsize.
Qed.

(** X11. A non-empty JSON object in the place of one of the four list
    sub-records (the provider's error payload, for one) makes [[0]] raise
    [KeyError(0)], and the symbol is skipped; this holds for the balance
    sheets and the key metrics too, although no metric is read from them. *)
Theorem object_in_place_of_list_skips (before after : list (string * gmap string pyval))
    (symbol key : string) (data : gmap string pyval) (o : gmap string value) :
  key ∈ ["income_statements"; "balance_sheets"; "key_metrics"; "ratios"] →
  data !! key = Some (PObj o) →
  o ≠ ∅ →
  derive symbol data = Raise (PyExc KeyError "0")
  ∧ _calculate_metrics (before ++ (symbol, data) :: after)
    = _calculate_metrics (before ++ after).
Proof.
  intros Hkey Hdata Hne.
  assert (derive symbol data = Raise (PyExc KeyError "0")) as Hraise.
  { pose proof (first_or_empty_object _ _ _ Hdata Hne) as Hfirst.
    unfold derive.
    destruct (first_or_empty data "income_statements") as [income|e] eqn:H1;
      [|by apply first_or_empty_raise in H1 as ->].
    destruct (first_or_empty data "balance_sheets") as [balance|e] eqn:H2;
      [|by apply first_or_empty_raise in H2 as ->].
    destruct (first_or_empty data "key_metrics") as [km|e] eqn:H3;
      [|by apply first_or_empty_raise in H3 as ->].
    destruct (first_or_empty data "ratios") as [ratios|e] eqn:H4;
      [|by apply first_or_empty_raise in H4 as ->].
    rewrite !elem_of_cons in Hkey.
    destruct Hkey as [-> | [-> | [-> | [-> | []%elem_of_nil]]]]; congruence. }
  split; [done|]. apply calculate_metrics_skip. right. by eexists.
Qed.

Lemma object_in_place_of_list_skips_witness :
  derive "X"
    {[ "symbol" := PStr "X";
       "balance_sheets" := PObj {[ "Error Message" := VStr "Limit Reach" ]} ]}
  = Raise (PyExc KeyError "0").
Proof.
  apply (object_in_place_of_list_skips [] [] "X" "balance_sheets" _
           {[ "Error Message" := VStr "Limit Reach" ]}).
  - set_solver.
  - reflexivity.
  - intros H. apply (f_equal (λ m, m !! "Error Message")) in H. discriminate.
Defined.

(** ** The ranking of analysed batches *)

#[global] Instance score_ge_trans : Transitive score_ge.
Proof. intros a b c Hab Hbc. unfold score_ge in *. by etrans. Qed.

(** X12. No row left out of the ranking scores more than a row kept: the
    ranking and the rows left out together are the input, and every row
    kept has a score at least as high as every row left out. *)
Theorem rows_kept_score_highest (results : list (string * gmap string value))
    (top_n : Z) (rows : list (string * gmap string value)) :
  get_top_stocks results top_n (Ok rows) →
  ∃ rest, results ≡ₚ rows ++ rest
    ∧ ∀ a b, a ∈ rows → b ∈ rest → (score_key b ≤ score_key a)%Qc.
Proof.
  intros (_ & sorted & [Hperm Hsorted] & ->)%get_top_stocks_Ok.
  destruct (df_head_take top_n sorted) as (k & -> & _).
  exists (drop k sorted). rewrite take_drop. split; [done|].
  intros a b Ha Hb. apply Sorted_StronglySorted in Hsorted; [|apply _].
  rewrite <- (take_drop k sorted) in Hsorted.
  by apply (StronglySorted_app_1_elem_of _ _ _ a b) in Hsorted.
Qed.

Lemma rows_kept_score_highest_witness :
  ∃ rest, Samples.rows_three
          ≡ₚ [ Samples.row "A" 10; Samples.row "C" 5 ] ++ rest.
Proof.
  destruct (rows_kept_score_highest Samples.rows_three (-1)
              [ Samples.row "A" 10; Samples.row "C" 5 ])
    as (rest & Hperm & _); [|by exists rest].
  change (get_top_stocks Samples.rows_three (-1)
            (Ok (df_head (-1)
               [ Samples.row "A" 10; Samples.row "C" 5; Samples.row "B" 2 ]))).
  apply top_rows; [done| |apply rows_three_sorted].
  repeat constructor; by eexists.
Defined.

Lemma analyze_scores_numeric stocks_data scored :
  analyze stocks_data = Ok scored →
  Forall (λ row, is_Some (score_cell row)) scored.
Proof.
  intros Hrows%analyze_rows. apply Forall_forall. intros row' Hin.
  apply list_elem_of_lookup in Hin as [i Hi].
  destruct (Forall2_lookup_r _ _ _ _ _ Hrows Hi) as (row & _ & s & _ & _ & ->).
  unfold score_cell. simpl. rewrite lookup_insert_eq. by eexists.
Qed.

(** *** The order of tied rows *)

Lemma sort_values_quicksort_indexer (rows : list (string * gmap string value))
    (indexer : list nat) :
  nargsort_descending (score_key <$> rows) = Some indexer →
  sort_values_quicksort rows = Some (omap (λ i, rows !! i) indexer).
Proof. intros Hindexer. unfold sort_values_quicksort. by rewrite Hindexer. Qed.

Lemma omap_lookup_seq {A : Type} (k l : list A) :
  omap (λ i, (k ++ l) !! i) (seq (length k) (length l)) = l.
Proof.
  revert k. induction l as [|x l IH]; intros k; [done|].
  cbn [length seq omap list_omap]. rewrite list_lookup_middle by done.
  f_equal. rewrite (cons_middle x k l), app_assoc.
  specialize (IH (k ++ [x])). rewrite length_app in IH. simpl in IH.
  by rewrite Nat.add_1_r in IH.
Qed.

(** Rows taken at positions that are a rearrangement of all positions are
    a rearrangement of the rows. *)
Lemma omap_lookup_Permutation {A : Type} (l : list A) (indexer : list nat) :
  indexer ≡ₚ seq 0 (length l) → omap (λ i, l !! i) indexer ≡ₚ l.
Proof.
  intros ->. pose proof (omap_lookup_seq [] l) as H.
  cbn [app length] in H. by rewrite H.
Qed.

Lemma omap_lookup_fst {A B : Type} (l : list (A * B)) (indexer : list nat) :
  (omap (λ i, l !! i) indexer).*1 = omap (λ i, l.*1 !! i) indexer.
Proof.
  induction indexer as [|i indexer IH]; [done|].
  cbn [omap list_omap]. rewrite list_lookup_fmap.
  destruct (l !! i); cbn [fmap option_fmap option_map]; [|done].
  by rewrite fmap_cons, IH.
Qed.

Lemma same_key_sorted (rows : list (string * gmap string value)) (q : Qc) :
  Forall (λ row, score_key row = q) rows → Sorted score_ge rows.
Proof.
  induction 1 as [|row rows Hrow Hrows IH]; [constructor|].
  constructor; [done|].
  destruct Hrows as [|row' rows' Hrow' _]; constructor.
  unfold score_ge. by rewrite Hrow, Hrow'.
Qed.

(** For two tied rows the default sort is an insertion sort: they keep
    their order. *)
Lemma rows_tied_ranked :
  sort_values_quicksort Samples.rows_tied = Some Samples.rows_tied.
Proof.
  by rewrite (sort_values_quicksort_indexer _ [0; 1]%nat) by (by vm_compute).
Qed.

(** Eighteen equal keys are partitioned once, which leaves the third
    position to the seventeenth in reverse. *)
Lemma nargsort_eighteen :
  nargsort_descending (replicate 18 (Qc_of_Z 2)) = Some Samples.indexer_eighteen.
Proof. by vm_compute. Qed.

(** The batch of eighteen is analysed into eighteen rows of score 2, in
    the order of the batch. *)
Lemma batch_eighteen_scored :
  ∃ scored, analyze Samples.batch_eighteen = Ok scored
    ∧ scored.*1 = Samples.symbols_eighteen
    ∧ score_key <$> scored = replicate 18 (Qc_of_Z 2).
Proof.
  destruct (is_ok_inv (analyze Samples.batch_eighteen)) as [scored E];
    [by vm_compute|].
  exists scored. split; [done|]. split.
  - pose proof E as [-> _]%scores_keep_rows. by vm_compute.
  - assert (match analyze Samples.batch_eighteen with
            | Ok rows => score_key <$> rows
            | Raise _ => []
            end = replicate 18 (Qc_of_Z 2)) as Hkeys by (by vm_compute).
    by rewrite E in Hkeys.
Qed.

(** C3, as stated, fails. Eighteen symbols for which the provider has
    nothing but a quote all score 2. The default sort of pandas, numpy's
    introsort, partitions an array of more than 17 elements by swapping
    elements that need not differ: it returns the rows in the order S01,
    S02, S17, S16, ..., S03, S18, and the ranking of the best ten lists S17
    before S16, against their order in the input. *)
Lemma tie_order_not_kept :
  ∃ scored ranked,
    analyze Samples.batch_eighteen = Ok scored
    ∧ scored.*1 = Samples.symbols_eighteen
    ∧ score_key <$> scored = replicate 18 (Qc_of_Z 2)
    ∧ sort_values_quicksort scored = Some ranked
    ∧ analyze_stocks Samples.batch_eighteen 10 (Ok (df_head 10 ranked))
    ∧ (df_head 10 ranked).*1
      = [ "S01"; "S02"; "S17"; "S16"; "S15"; "S14"; "S13"; "S12"; "S11"; "S10" ]
    ∧ ¬ keeps_tie_order scored (df_head 10 ranked).
Proof.
  destruct batch_eighteen_scored as (scored & E & Hsymbols & Hkeys).
  pose proof (f_equal length Hsymbols) as Hlen. rewrite length_fmap in Hlen.
  exists scored, (omap (λ i, scored !! i) Samples.indexer_eighteen).
  assert (omap (λ i, scored !! i) Samples.indexer_eighteen ≡ₚ scored) as Hperm.
  { apply omap_lookup_Permutation. rewrite Hlen.
    apply (bool_decide_unpack _). by vm_compute. }
  assert ((df_head 10 (omap (λ i, scored !! i) Samples.indexer_eighteen)).*1
          = [ "S01"; "S02"; "S17"; "S16"; "S15"; "S14"; "S13"; "S12"; "S11";
              "S10" ]) as Hranked.
  { unfold df_head. rewrite bool_decide_true by done.
    rewrite fmap_take, omap_lookup_fst, Hsymbols. reflexivity. }
  split_and!; [done..| | |done|].
  - apply sort_values_quicksort_indexer. rewrite Hkeys. apply nargsort_eighteen.
  - unfold analyze_stocks. rewrite E. apply top_rows.
    + intros ->. discriminate Hlen.
    + by eapply analyze_scores_numeric.
    + split; [done|]. apply (same_key_sorted _ (Qc_of_Z 2)).
      rewrite Hperm. apply Forall_forall. intros row Hrow.
      apply (list_elem_of_fmap_2 score_key) in Hrow. rewrite Hkeys in Hrow.
      by apply elem_of_replicate in Hrow as [-> _].
  - intros Hstable.
    set (ranked := df_head 10 (omap (λ i, scored !! i) Samples.indexer_eighteen))
      in *.
    assert (∀ i s, ranked.*1 !! i = Some s →
              ∃ row, ranked !! i = Some row ∧ row.1 = s
                     ∧ score_cell row = Some (Qc_of_Z 2)) as Hrow.
    { intros i s Hi. rewrite list_lookup_fmap in Hi.
      destruct (ranked !! i) as [row|] eqn:Hr; [|done]. injection Hi as <-.
      exists row. split_and!; [done..|].
      assert (row ∈ scored) as Hin.
      { rewrite <- Hperm. apply list_elem_of_lookup_2 in Hr.
        unfold ranked, df_head in Hr. rewrite bool_decide_true in Hr by done.
        eapply elem_of_sublist; [done|apply sublist_take]. }
      pose proof (analyze_scores_numeric _ _ E) as Hnum.
      rewrite Forall_forall in Hnum. destruct (Hnum _ Hin) as [q Hq].
      apply (list_elem_of_fmap_2 score_key) in Hin. rewrite Hkeys in Hin.
      apply elem_of_replicate in Hin as [Hkey _].
      unfold score_key in Hkey. rewrite Hq in Hkey. simpl in Hkey.
      by rewrite Hq, Hkey. }
    destruct (Hrow 2%nat "S17") as (a & Ha & Hsa & Hca); [by rewrite Hranked|].
    destruct (Hrow 3%nat "S16") as (b & Hb & Hsb & Hcb); [by rewrite Hranked|].
    destruct (Hstable 2%nat 3%nat a b) as (i' & j' & Hlt & Hi & Hj);
      [lia|done|done|by rewrite Hca, Hcb|].
    assert (∀ (i : nat) row, scored !! i = Some row →
              Samples.symbols_eighteen !! i = Some row.1) as Hpos.
    { intros i row Hi'. by rewrite <- Hsymbols, list_lookup_fmap, Hi'. }
    assert (NoDup Samples.symbols_eighteen) as Hnd
      by (apply (bool_decide_unpack _); by vm_compute).
    apply Hpos in Hi, Hj. rewrite Hsa in Hi. rewrite Hsb in Hj.
    assert (i' = 16%nat) as -> by (by eapply NoDup_lookup).
    assert (j' = 15%nat) as -> by (by eapply NoDup_lookup).
    lia.
Qed.

(** C3, amended. The ranking is a prefix of a listing of the input rows in
    non-increasing score order, with the score as the only key: the rows
    kept are sorted by score, and the rows left out follow them in that
    order. The order among rows of equal score is not part of that. *)
Theorem top_n_sorted_prefix (results : list (string * gmap string value))
    (top_n : Z) (rows : list (string * gmap string value)) :
  get_top_stocks results top_n (Ok rows) →
  Sorted score_ge rows
  ∧ ∃ rest, results ≡ₚ rows ++ rest ∧ Sorted score_ge (rows ++ rest).
Proof.
  intros (Hne & sorted & [Hperm Hsorted] & ->)%get_top_stocks_Ok.
  destruct (df_head_take top_n sorted) as (k & -> & _).
  split.
  - rewrite <- (take_drop k sorted) in Hsorted.
    by apply Sorted_prefix in Hsorted.
  - exists (drop k sorted). by rewrite take_drop.
Qed.

Lemma top_n_sorted_prefix_witness :
  Sorted score_ge [ Samples.row "A" 10; Samples.row "C" 5 ].
Proof.
  assert (get_top_stocks Samples.rows_three (-1)
            (Ok (df_head (-1)
               [ Samples.row "A" 10; Samples.row "C" 5; Samples.row "B" 2 ])))
    as Hout.
  { apply top_rows; [done| |apply rows_three_sorted].
    repeat constructor; by eexists. }
  by destruct (top_n_sorted_prefix _ _ _ Hout) as [Hsorted _].
Defined.

(** X13. Whenever [analyze] returns at least one row, the ranking is
    returned too: its rows all carry a numeric score, so that sorting and
    taking the head cannot raise. *)
Theorem ranking_follows_analysis (stocks_data : list (string * gmap string pyval))
    (scored : list (string * gmap string value)) (top_n : Z) :
  analyze stocks_data = Ok scored →
  scored ≠ [] →
  (∃ rows, analyze_stocks stocks_data top_n (Ok rows))
  ∧ ∀ out, analyze_stocks stocks_data top_n out → ∃ rows, out = Ok rows.
Proof.
  intros Hscored Hne. unfold analyze_stocks. rewrite Hscored. split.
  - apply get_top_stocks_total; [done|]. by eapply analyze_scores_numeric.
  - intros out (sorted & _ & ->)%get_top_stocks_nonempty; [eauto|done].
Qed.

Lemma ranking_follows_analysis_witness :
  ∃ rows, analyze_stocks [ ("BBB", Samples.data_quote_only) ] 10 (Ok rows).
Proof.
  destruct (is_ok_inv (analyze [ ("BBB", Samples.data_quote_only) ]))
    as [scored E]; [by vm_compute|].
  apply (ranking_follows_analysis _ scored 10 E).
  intros ->. apply scores_keep_rows in E as [Hkeys _].
  by vm_compute in Hkeys.
Defined.

(** X14. Every row of a ranking that comes out of [analyze_stocks] stems
    from an entry of the batch that carries no error: it is the derived
    record of that entry, with the score of that record, an integer from
    0 to 10, in its [score] field. *)
Theorem ranked_rows_stem_from_batch (stocks_data : list (string * gmap string pyval))
    (top_n : Z) (rows : list (string * gmap string value)) :
  analyze_stocks stocks_data top_n (Ok rows) →
  Forall (λ row', ∃ data m s,
            (row'.1, data) ∈ stocks_data
            ∧ data !! "error" = None
            ∧ derive row'.1 data = Ok m
            ∧ score m = Ok s ∧ 0 ≤ s ≤ 10
            ∧ row'.2 = <["score" := num s]> m) rows.
Proof.
  unfold analyze_stocks.
  destruct (analyze stocks_data) as [scored|e] eqn:Hscored; [|done].
  intros Hsub%get_top_stocks_subseteq.
  apply analyze_rows in Hscored. apply Forall_forall. intros row' Hin.
  apply Hsub, list_elem_of_lookup in Hin as [i Hi].
  destruct (Forall2_lookup_r _ _ _ _ _ Hscored Hi)
    as ([sym m] & Hrow & s & Hs & Hrange & ->).
  apply list_elem_of_lookup_2, calculate_metrics_elem in Hrow
    as (data & Hdata & Herr & Hd).
  by exists data, m, s.
Qed.

Lemma ranked_rows_stem_from_batch_witness :
  ∃ rows, analyze_stocks [ ("BBB", Samples.data_quote_only) ] 10 (Ok rows)
          ∧ Forall (λ row, row.1 = "BBB") rows.
Proof.
  destruct (is_ok_inv (analyze [ ("BBB", Samples.data_quote_only) ]))
    as [scored E]; [by vm_compute|].
  assert (scored ≠ []) as Hne.
  { intros ->. apply scores_keep_rows in E as [Hkeys _].
    by vm_compute in Hkeys. }
  assert (analyze_stocks [ ("BBB", Samples.data_quote_only) ] 10
            (Ok (df_head 10 (sort_values_merge scored)))) as Hout.
  { unfold analyze_stocks. rewrite E.
    apply top_rows; [done| |apply sort_values_merge_spec].
    by eapply analyze_scores_numeric. }
  eexists. split; [exact Hout|].
  eapply Forall_impl; [apply (ranked_rows_stem_from_batch _ _ _ Hout)|].
  intros row (data & _ & _ & Hin & _). simpl in Hin.
  by apply list_elem_of_singleton in Hin as [= ->].
Defined.

(** ** A provider that answers *)

Section healthy_provider.
Variable net : nat → string → gmap string value → outcome.
Variable self : FinancialDataFetcher.

Hypothesis retries_positive : 0 < max_retries self.
Hypothesis net_answers_lists : ∀ n url params, ∃ l, net n url params = Response (PList l).

Lemma series_first_answer endpoint params w :
  ∃ l, _make_api_request net self endpoint params w
       = (Ok (PList l),
          World (S (sent w))
            (trace w ++ [EvGet (base_url self +:+ "/" +:+ endpoint)
                           (<["apikey" := VStr (api_key self)]> params)])).
Proof.
  destruct (net_answers_lists (sent w) (base_url self +:+ "/" +:+ endpoint)
              (<["apikey" := VStr (api_key self)]> params)) as [l Hl].
  exists l. by apply make_api_request_first_answer.
Qed.

Lemma unwrap_list l w : ∃ o, unwrap (PList l) w = (Ok (PObj o), w).
Proof. destruct l as [|o l]; [by exists ∅ | by exists o]. Qed.

(** X15. When every request is answered with a list at the first
    attempt, the fetch of a symbol sends exactly seven requests, never
    sleeps, and returns a record with the eight keys and no [error]. *)
Theorem healthy_fetch_costs_seven_requests (symbol : string) (w : world) :
  ∃ r evs,
    get_stock_data net self symbol w
    = (Ok r, World (sent w + 7) (trace w ++ evs))
    ∧ dom r = record_keys
    ∧ r !! "error" = None
    ∧ length evs = 7%nat
    ∧ count_gets evs = 7%nat.
Proof.
  unfold get_stock_data, try_except, mbind, M_bind, get_company_profile,
    get_income_statement, get_balance_sheet, get_key_metrics, get_ratios,
    get_growth, get_stock_quote, mbind, M_bind.
  destruct (series_first_answer ("profile/" +:+ symbol) ∅ w) as [l1 ->].
  destruct (unwrap_list l1 (World (S (sent w))
    (trace w ++ [EvGet (base_url self +:+ "/" +:+ ("profile/" +:+ symbol))
                   (<["apikey" := VStr (api_key self)]> ∅)]))) as [o1 ->].
  repeat match goal with
  | |- context [_make_api_request net self ?e ?p ?w0] =>
      let l := fresh "l" in
      destruct (series_first_answer e p w0) as [l ->]; cbn [sent trace]
  end.
  match goal with
  | |- context [unwrap (PList ?l) ?w0] =>
      destruct (unwrap_list l w0) as [o7 ->]
  end.
  eexists _, [_; _; _; _; _; _; _]. split_and!.
  - unfold mret, M_ret. f_equal. f_equal; [lia|].
    rewrite <- !app_assoc. reflexivity.
  - rewrite !dom_insert_L, dom_singleton_L. unfold record_keys. set_solver.
  - reflexivity.
  - reflexivity.
  - reflexivity.
Qed.

End healthy_provider.

Lemma healthy_fetch_costs_seven_requests_witness :
  sent (get_stock_data (λ _ _ _, Response (PList [])) (default_fetcher "key")
          "X" (World 0 [])).2
  = 7%nat.
Proof.
  destruct (healthy_fetch_costs_seven_requests
              (λ _ _ _, Response (PList [])) (default_fetcher "key")
              ltac:(simpl; lia) ltac:(intros; by eexists) "X" (World 0 []))
    as (r & evs & -> & _). reflexivity.
Defined.

(** ** Periods the derivation reads *)

Lemma revenue_growth_window (l : list (gmap string value)) :
  (5 ≤ length l)%nat →
  revenue_growth (PList (take 5 l)) = revenue_growth (PList l).
Proof.
  intros Hlen. unfold revenue_growth. simpl.
  rewrite length_take, Nat.min_l by done.
  rewrite bool_decide_true by lia. rewrite bool_decide_true by done.
  by rewrite take_take, Nat.min_id.
Qed.

(** X16. The metrics depend on the latest period only: cutting the
    ratios and the income statements down to their first entry, and a
    growth history of five or more entries down to its first five, leaves
    the outcome of the derivation as it is. *)
Theorem only_latest_periods_are_read (symbol : string) (data : gmap string pyval)
    (r i : gmap string value) (rs is_ l : list (gmap string value)) :
  data !! "ratios" = Some (PList (r :: rs)) →
  data !! "income_statements" = Some (PList (i :: is_)) →
  data !! "growth" = Some (PList l) →
  (5 ≤ length l)%nat →
  derive symbol
    (<["ratios" := PList [r]]>
       (<["income_statements" := PList [i]]>
          (<["growth" := PList (take 5 l)]> data)))
  = derive symbol data.
Proof.
  intros Hr Hi Hl Hlen. unfold derive, first_or_empty, growth_or_empty.
  rewrite lookup_insert_eq.
  rewrite !(lookup_insert_ne _ "ratios") by done.
  rewrite lookup_insert_eq.
  rewrite !(lookup_insert_ne _ "income_statements") by done.
  rewrite lookup_insert_eq.
  rewrite !(lookup_insert_ne _ "growth") by done.
  rewrite Hr, Hi, Hl.
  destruct l as [|g l]; [simpl in Hlen; lia|].
  change (truthy (PList (take 5 (g :: l)))) with true.
  change (truthy (PList (g :: l))) with true. cbn match.
  by rewrite revenue_growth_window.
Qed.

Lemma only_latest_periods_are_read_witness :
  derive "AAA"
    (<["ratios" := PList [ ∅ ]]>
       (<["income_statements" := PList [ ∅ ]]>
          (<["growth" := PList (take 5 (Samples.growth_with_null
                                        ++ Samples.growth_with_null))]>
             (<["ratios" := PList [ ∅; ∅ ]]>
                (<["income_statements" := PList [ ∅; ∅ ]]>
                   (<["growth" := PList (Samples.growth_with_null
                                         ++ Samples.growth_with_null)]>
                      ∅))))))
  = derive "AAA"
      (<["ratios" := PList [ ∅; ∅ ]]>
         (<["income_statements" := PList [ ∅; ∅ ]]>
            (<["growth" := PList (Samples.growth_with_null
                                  ++ Samples.growth_with_null)]> ∅))).
Proof.
  apply (only_latest_periods_are_read "AAA" _ ∅ ∅ [ ∅ ] [ ∅ ]
           (Samples.growth_with_null ++ Samples.growth_with_null));
    [reflexivity..|simpl; lia].
Defined.
